(** * Semantic skill matching: the corpus index and the services built on it

    A shallow embedding of
      - [app/models/skills_matcher.py]                 (class [SkillsMatcher]),
      - [app/services/extraction_service.py]           (class [SkillExtractionService]),
      - [app/services/occupation_inference_service.py] (class [OccupationInferenceService]).

    Modelling conventions.
      - A Python [str] is a [string]; its characters are the code points
        below 256, on which [str.lower], [str.strip] and [str.isspace]
        are the functions [lower], [strip] and [isspace] below.
      - A similarity score (a Python or numpy float) is a rational [Q]:
        comparison, sum, division and rounding are exact; the rounding
        error of binary floating point and NaN are outside the model.
      - The sentence-transformer is an oracle: an encoder [string -> vec]
        held by the matcher and a cosine similarity [vec -> vec -> Q].
      - A Python [dict] whose iteration order matters is an association
        list in insertion order.
      - The calls a service makes to [find_similar] are recorded in a log
        that is returned next to the result. *)

From Stdlib Require Import List String Ascii Bool Arith ZArith QArith Qround.
From Stdlib Require Import Qabs Lia Lqa Permutation Sorted.
Import ListNotations.

Local Open Scope nat_scope.
Local Open Scope list_scope.

(** ** Python strings *)

Module PyStr.

(** [str.isspace] on one character (code points below 256):
    TAB, LF, VT, FF, CR, FS, GS, RS, US, SPACE, NEL and NBSP. *)
Definition isspace (c : ascii) : bool :=
  let n := nat_of_ascii c in
  ((9 <=? n) && (n <=? 13)) || ((28 <=? n) && (n <=? 32))
  || (n =? 133) || (n =? 160).

Definition is_upper (c : ascii) : bool :=
  let n := nat_of_ascii c in
  ((65 <=? n) && (n <=? 90)) || ((192 <=? n) && (n <=? 214))
  || ((216 <=? n) && (n <=? 222)).

Definition is_lower_cased (c : ascii) : bool :=
  let n := nat_of_ascii c in
  ((97 <=? n) && (n <=? 122)) || ((224 <=? n) && (n <=? 246))
  || ((248 <=? n) && (n <=? 254)).

(** [str.lower] on one character. *)
Definition lower_char (c : ascii) : ascii :=
  if is_upper c then ascii_of_nat (nat_of_ascii c + 32) else c.

(** The upper-case counterpart of a lower-case letter, inside the range. *)
Definition upper_char (c : ascii) : ascii :=
  if is_lower_cased c then ascii_of_nat (nat_of_ascii c - 32) else c.

(** [s.lower()] *)
Fixpoint lower (s : string) : string :=
  match s with
  | EmptyString => EmptyString
  | String c s' => String (lower_char c) (lower s')
  end.

(** [s.lstrip()] *)
Fixpoint lstrip (s : string) : string :=
  match s with
  | EmptyString => EmptyString
  | String c s' => if isspace c then lstrip s' else s
  end.

(** [s.rstrip()] *)
Fixpoint rstrip (s : string) : string :=
  match s with
  | EmptyString => EmptyString
  | String c s' =>
      match rstrip s' with
      | EmptyString => if isspace c then EmptyString else String c EmptyString
      | r => String c r
      end
  end.

(** [s.strip()] *)
Definition strip (s : string) : string := rstrip (lstrip s).

(** Truth value of a string: [bool(s)], true when [s] is not empty. *)
Definition truthy (s : string) : bool :=
  match s with EmptyString => false | String _ _ => true end.

(** [sub in s] for strings: [sub] occurs in [s] as a contiguous block. *)
Fixpoint contains (s sub : string) : bool :=
  String.prefix sub s
  || match s with
     | EmptyString => false
     | String _ s' => contains s' sub
     end.

(** A string made of white space only. *)
Fixpoint all_space (s : string) : bool :=
  match s with
  | EmptyString => true
  | String c s' => isspace c && all_space s'
  end.

(** A string that does not begin with white space. *)
Definition clean_head (s : string) : Prop :=
  match s with EmptyString => True | String c _ => isspace c = false end.

(** Two strings of the same length whose characters agree up to the case
    of letters. *)
Inductive same_letters : string -> string -> Prop :=
| same_nil : same_letters EmptyString EmptyString
| same_cons c d s t :
    (d = c \/ d = lower_char c \/ d = upper_char c) ->
    same_letters s t ->
    same_letters (String c s) (String d t).

(** [q'] is [q] up to the case of its letters and up to white space before
    and after it. *)
Definition variant (q q' : string) : Prop :=
  exists pre post pre' post' core core',
    q = (pre ++ core ++ post)%string /\
    q' = (pre' ++ core' ++ post')%string /\
    all_space pre = true /\ all_space post = true /\
    all_space pre' = true /\ all_space post' = true /\
    same_letters core core'.

End PyStr.

(** ** Python lists, dictionaries and sorting *)

Module PyList.

(** [l[:k]]: the first [k] items; a negative [k] counts from the end. *)
Definition take {A : Type} (k : Z) (l : list A) : list A :=
  if (0 <=? k)%Z then firstn (Z.to_nat k) l
  else firstn (List.length l - Z.to_nat (- k)) l.

(** [x in l] for a list of strings. *)
Definition mem (x : string) (l : list string) : bool :=
  existsb (String.eqb x) l.

(** [list(dict.fromkeys(l))]: the keys are inserted one after the other,
    a key already present keeps its place. *)
Definition fromkeys_step (acc : list string) (x : string) : list string :=
  if mem x acc then acc else acc ++ [x].

Definition fromkeys (l : list string) : list string :=
  fold_left fromkeys_step l [].

(** Position of the first occurrence of [x] in [l] ([List.length l] if none). *)
Fixpoint index_of (x : string) (l : list string) : nat :=
  match l with
  | [] => 0
  | y :: l' => if String.eqb y x then 0 else S (index_of x l')
  end.

(** [sum(l)] *)
Definition sum (l : list Q) : Q := fold_left Qplus l 0%Q.

(** The keys come out in the order in which they were first seen. *)
Definition first_seen (l : list string) (a b : string) : Prop :=
  index_of a l < index_of b l.

Section Sorting.

Variable A : Type.
Variable key : A -> Q.

(** [l.sort(key=key, reverse=True)]: Python's sort is stable, also with
    [reverse=True]; items with equal keys keep their order. An item is
    placed before the first item whose key is not greater than its own. *)
Fixpoint insert_desc (x : A) (l : list A) : list A :=
  match l with
  | [] => [x]
  | y :: l' => if Qle_bool (key y) (key x) then x :: l
               else y :: insert_desc x l'
  end.

Definition sort_desc (l : list A) : list A := fold_right insert_desc [] l.

Definition desc (a b : A) : Prop := (key b <= key a)%Q.

(** Items that share a score: the sort leaves them in their order. *)
Definition tied (s : Q) (a : A) : bool := Qeq_bool (key a) s.

End Sorting.

Arguments insert_desc {A}.
Arguments sort_desc {A}.
Arguments desc {A}.
Arguments tied {A}.

End PyList.

Import PyStr PyList.

(** ** Outcome of a call

    A call returns a value or raises an exception. *)

Inductive exn : Type := Error (name : string).

Inductive outcome (A : Type) : Type :=
| Returned (value : A)
| Raised (e : exn).

Arguments Returned {A}.
Arguments Raised {A}.

(** ** [SkillsMatcher] (app/models/skills_matcher.py) *)

Section Matcher.

(** The embedding oracle: the type of vectors and [util.pytorch_cos_sim]. *)
Variable vec : Type.
Variable cos_sim : vec -> vec -> Q.

(** The attributes of a [SkillsMatcher]; [None] is Python's [None]. *)
Record SkillsMatcher : Type := mkSkillsMatcher {
  model : option (string -> vec);
  corpus_embeddings : option (list vec);
  corpus : list string
}.

(** [__init__], the model having been loaded ([_load_model] raises
    otherwise and no object is built). *)
Definition new_matcher (enc : string -> vec) : SkillsMatcher :=
  {| model := Some enc; corpus_embeddings := None; corpus := [] |}.

(** [encode_texts]: one vector per text; an error of the encoder is caught
    and the empty array returned. *)
Definition encode_texts (self : SkillsMatcher) (texts : list string) : list vec :=
  match model self with
  | Some enc => map enc texts
  | None => []
  end.

(** The text of a term as it is stored and embedded. *)
Definition normalize (s : string) : string := lower (strip s).

(** [build_corpus]. No step of its [try] block raises on a list of
    strings ([encode_texts] catches the failures of the encoder itself),
    so the handler that logs and re-raises is never entered. *)
Definition build_corpus (self : SkillsMatcher) (skills : list string)
  : outcome SkillsMatcher :=
  let corpus1 := map normalize (filter (fun s => truthy (strip s)) skills) in
  let corpus2 := fromkeys corpus1 in
  Returned {| model := model self;
              corpus_embeddings := Some (encode_texts self corpus2);
              corpus := corpus2 |}.

(** The comprehension of [find_similar]:
    [[(self.corpus[idx], float(score)) for idx, score in
      enumerate(similarities) if score >= threshold]];
    [None] when [self.corpus[idx]] raises [IndexError]. *)
Fixpoint above_threshold (self : SkillsMatcher) (threshold : Q) (idx : nat)
    (similarities : list Q) : option (list (string * Q)) :=
  match similarities with
  | [] => Some []
  | score :: rest =>
      if Qle_bool threshold score then
        match nth_error (corpus self) idx with
        | None => None
        | Some text =>
            option_map (cons (text, score))
                       (above_threshold self threshold (S idx) rest)
        end
      else above_threshold self threshold (S idx) rest
  end.

(** [find_similar]; an exception inside its [try] block is caught and the
    empty list returned. *)
Definition find_similar (self : SkillsMatcher) (query : string) (top_k : Z)
    (threshold : Q) : list (string * Q) :=
  match corpus_embeddings self with
  | None => []
  | Some embeddings =>
      if List.length (corpus self) =? 0 then []
      else
        match model self with
        | None => []
        | Some enc =>
            let query_embedding := enc (lower (strip query)) in
            let similarities := map (cos_sim query_embedding) embeddings in
            match above_threshold self threshold 0 similarities with
            | None => []
            | Some results => take top_k (sort_desc snd results)
            end
        end
  end.

Definition is_some {A : Type} (o : option A) : bool :=
  match o with Some _ => true | None => false end.

(** [is_corpus_ready] *)
Definition is_corpus_ready (self : SkillsMatcher) : bool :=
  is_some (model self) && is_some (corpus_embeddings self)
  && (0 <? List.length (corpus self)).

(** The states of a matcher: a new one, then any number of builds. *)
Inductive reachable (enc : string -> vec) : SkillsMatcher -> Prop :=
| reach_new : reachable enc (new_matcher enc)
| reach_build self skills self' :
    reachable enc self ->
    build_corpus self skills = Returned self' ->
    reachable enc self'.

(** The similarity of a query to a stored text, and the scored corpus. *)
Definition score_of (enc : string -> vec) (query text : string) : Q :=
  cos_sim (enc (lower (strip query))) (enc text).

Definition clears (threshold : Q) (p : string * Q) : bool :=
  Qle_bool threshold (snd p).

Definition candidates (enc : string -> vec) (self : SkillsMatcher)
    (query : string) (threshold : Q) : list (string * Q) :=
  filter (clears threshold)
         (map (fun text => (text, score_of enc query text)) (corpus self)).

End Matcher.

Arguments model {vec}.
Arguments corpus_embeddings {vec}.
Arguments corpus {vec}.
Arguments new_matcher {vec}.
Arguments encode_texts {vec}.
Arguments build_corpus {vec}.
Arguments above_threshold {vec}.
Arguments find_similar {vec}.
Arguments is_corpus_ready {vec}.
Arguments reachable {vec}.
Arguments score_of {vec}.
Arguments candidates {vec}.
Arguments is_some {A}.

(** ** Numbers *)

(** [int(x)] on a float: truncation towards zero. *)
Definition py_int (x : Q) : Z := Z.quot (Qnum x) (Zpos (Qden x)).

(** The integer nearest to [x], a tie going to the even one. *)
Definition round_half_even (x : Q) : Z :=
  let f := Qfloor x in
  match Qcompare (x - inject_Z f) (1 # 2) with
  | Lt => f
  | Gt => (f + 1)%Z
  | Eq => if Z.even f then f else (f + 1)%Z
  end.

(** [round(x, 4)] *)
Definition round4 (x : Q) : Q := Qmake (round_half_even (x * 10000)) 10000.

(** [x > y] on floats. *)
Definition Qgt_bool (x y : Q) : bool := negb (Qle_bool x y).

(** [sum(l) / n] *)
Definition ratio (l : list Q) (n : nat) : Q :=
  (PyList.sum l / inject_Z (Z.of_nat n))%Q.

(** ** Calls to the index

    One record per call to [find_similar], in the order of the calls. *)
Record query_record : Type := mkQuery {
  q_text : string;
  q_top_k : Z;
  q_threshold : Q
}.

Inductive confidence_level : Type := high | medium | low.

(** ** [SkillExtractionService] (app/services/extraction_service.py) *)

Module Extraction.

(** One dictionary of the list [match_skills_with_bert] returns. *)
Record skill_match : Type := mkSkillMatch {
  original : string;
  matched_skill : option string;
  similarity_score : Q;
  confidence : confidence_level;
  reason : option string
}.

Inductive level_name : Type :=
| EXCELENTE | BOM | MODERADO | BAIXO | INSUFICIENTE.

Inductive recommendation_name : Type :=
| Forte_candidato | Candidato_em_desenvolvimento.

(** The dictionary of a full answer of [calculate_profile_match]; the
    percentage is the number printed before the [%] sign, the texts of
    ["analysis"] are kept as the numbers they print. *)
Record match_report : Type := mkReport {
  match_score : Q;
  match_percentage : Z;
  level : level_name;
  matched_skills : list string;
  matched_count : nat;
  missing_skills : list string;
  missing_count : nat;
  required_skills : list string;
  required_count : nat;
  recommendation : recommendation_name
}.

(** The three dictionaries [calculate_profile_match] can return: the one
    with the single key ["error"], the one for a candidate without skills
    (its constant ["analysis"] text is left out) and the full answer. *)
Inductive profile_match : Type :=
| ErrorDict (error : string)
| NoSkillsDict (score : Q) (percentage : Z)
    (required matched missing : list string)
| MatchDict (report : match_report).

Section Service.

Variable vec : Type.
Variable cos_sim : vec -> vec -> Q.

(** The service holds its matcher (the CBO loader is used by [__init__]
    only, to fill the corpus). *)
Record SkillExtractionService : Type := mkService {
  skills_matcher : SkillsMatcher vec
}.

(** The state of the loop of [match_skills_with_bert]: the list [matched]
    and the calls made so far. *)
Definition match_step (self : SkillExtractionService) (threshold : Q)
    (top_k : Z) (st : list skill_match * list query_record) (skill : string)
  : list skill_match * list query_record :=
  let '(matched, log) := st in
  let skill := strip skill in
  if negb (truthy skill) then (matched, log)
  else
    let results :=
      find_similar cos_sim (skills_matcher self) skill top_k threshold in
    let log := log ++ [mkQuery skill top_k threshold] in
    match results with
    | best_match :: _ =>
        (matched ++
           [mkSkillMatch skill (Some (fst best_match)) (snd best_match)
              (if Qgt_bool (snd best_match) (85 # 100) then high else medium)
              None],
         log)
    | [] =>
        (matched ++
           [mkSkillMatch skill None 0 low
              (Some "Sem match acima do threshold"%string)],
         log)
    end.

(** [match_skills_with_bert] *)
Definition match_skills_with_bert (self : SkillExtractionService)
    (skills : list string) (threshold : Q) (top_k : Z)
  : outcome (list skill_match) * list query_record :=
  match skills with
  | [] => (Returned [], [])
  | _ :: _ =>
      if negb (is_corpus_ready (skills_matcher self)) then (Returned [], [])
      else
        let valid_skills :=
          filter (fun s => truthy s && truthy (strip s)) skills in
        match valid_skills with
        | [] => (Returned [], [])
        | _ :: _ =>
            let '(matched, log) :=
              fold_left (match_step self threshold top_k) valid_skills ([], [])
            in (Returned matched, log)
        end
  end.

(** [any(req_lower in cs or cs in req_lower for cs in candidate_skills_lower)] *)
Definition exact_match (candidate_skills_lower : list string)
    (req_lower : string) : bool :=
  existsb (fun cs => contains cs req_lower || contains req_lower cs)
          candidate_skills_lower.

(** The state of the loop of [calculate_profile_match]. *)
Record tally : Type := mkTally {
  t_matched : list string;
  t_missing : list string;
  t_scores : list Q;
  t_log : list query_record
}.

Definition requirement_step (self : SkillExtractionService)
    (candidate_skills_lower : list string) (st : tally) (requirement : string)
  : tally :=
  let req_lower := lower requirement in
  if exact_match candidate_skills_lower req_lower then
    mkTally (t_matched st ++ [requirement]) (t_missing st)
            (t_scores st ++ [1%Q]) (t_log st)
  else
    let bert_results :=
      find_similar cos_sim (skills_matcher self) requirement 1 (70 # 100) in
    let log := t_log st ++ [mkQuery requirement 1 (70 # 100)] in
    match bert_results with
    | (matched_skill, score) :: _ =>
        if mem (lower matched_skill) candidate_skills_lower then
          mkTally (t_matched st ++ [requirement]) (t_missing st)
                  (t_scores st ++ [score]) log
        else
          mkTally (t_matched st) (t_missing st ++ [requirement])
                  (t_scores st) log
    | [] =>
        mkTally (t_matched st) (t_missing st ++ [requirement])
                (t_scores st) log
    end.

Definition level_of (match_percentage : Z) : level_name :=
  if (90 <=? match_percentage)%Z then EXCELENTE
  else if (75 <=? match_percentage)%Z then BOM
  else if (60 <=? match_percentage)%Z then MODERADO
  else if (40 <=? match_percentage)%Z then BAIXO
  else INSUFICIENTE.

(** [calculate_profile_match] *)
Definition calculate_profile_match (self : SkillExtractionService)
    (candidate_skills job_requirements : list string)
    (weight_match weight_similarity : Q)
  : outcome profile_match * list query_record :=
  match job_requirements with
  | [] => (Returned (ErrorDict "Nenhum requisito fornecido"), [])
  | _ :: _ =>
      match candidate_skills with
      | [] =>
          (Returned
             (NoSkillsDict 0 0 job_requirements [] job_requirements),
           [])
      | _ :: _ =>
          let candidate_skills_lower := map lower candidate_skills in
          let st :=
            fold_left (requirement_step self candidate_skills_lower)
                      job_requirements (mkTally [] [] [] []) in
          let avg_score :=
            match t_scores st with
            | [] => 0%Q
            | _ :: _ => ratio (t_scores st) (List.length job_requirements)
            end in
          let match_percentage := Z.min 100 (py_int (avg_score * 100)) in
          (Returned
             (MatchDict
                {| match_score := avg_score;
                   match_percentage := match_percentage;
                   level := level_of match_percentage;
                   matched_skills := t_matched st;
                   matched_count := List.length (t_matched st);
                   missing_skills := t_missing st;
                   missing_count := List.length (t_missing st);
                   required_skills := job_requirements;
                   required_count := List.length job_requirements;
                   recommendation :=
                     if (75 <=? match_percentage)%Z then Forte_candidato
                     else Candidato_em_desenvolvimento |}),
           t_log st)
      end
  end.

(** *** The scoring rule, requirement by requirement

    What the specification says of one requirement: a hit by containment
    counts 1; otherwise the best entry the index returns at threshold 0.70
    counts with its score if its text, lower-cased, is a candidate skill,
    lower-cased; otherwise the requirement is missing and counts 0. *)

Definition is_substring (a b : string) : Prop :=
  exists p s, b = (p ++ a ++ s)%string.

Definition contained (candidate_skills : list string) (requirement : string)
  : Prop :=
  exists cs, In cs candidate_skills /\
             (is_substring (lower requirement) (lower cs) \/
              is_substring (lower cs) (lower requirement)).

Definition semantic_score (self : SkillExtractionService)
    (candidate_skills : list string) (requirement : string) : option Q :=
  match find_similar cos_sim (skills_matcher self) requirement 1 (70 # 100) with
  | (text, score) :: _ =>
      if existsb (fun cs => String.eqb (lower text) (lower cs)) candidate_skills
      then Some score else None
  | [] => None
  end.

Definition exact (candidate_skills : list string) (requirement : string)
  : bool :=
  exact_match (map lower candidate_skills) (lower requirement).

Definition requirement_matched (self : SkillExtractionService)
    (candidate_skills : list string) (requirement : string) : bool :=
  exact candidate_skills requirement
  || is_some (semantic_score self candidate_skills requirement).

Definition requirement_score (self : SkillExtractionService)
    (candidate_skills : list string) (requirement : string) : Q :=
  if exact candidate_skills requirement then 1%Q
  else match semantic_score self candidate_skills requirement with
       | Some score => score
       | None => 0%Q
       end.

(** What one requirement adds to the list of scores and to the calls. *)
Definition scored (self : SkillExtractionService)
    (candidate_skills : list string) (r : string) : list Q :=
  if requirement_matched self candidate_skills r
  then [requirement_score self candidate_skills r] else [].

Definition asked (candidate_skills : list string) (r : string)
  : list query_record :=
  if exact candidate_skills r then [] else [mkQuery r 1 (70 # 100)].

End Service.

Arguments skills_matcher {vec}.
Arguments mkService {vec}.
Arguments scored {vec}.
Arguments match_step {vec}.
Arguments match_skills_with_bert {vec}.
Arguments requirement_step {vec}.
Arguments calculate_profile_match {vec}.
Arguments semantic_score {vec}.
Arguments requirement_matched {vec}.
Arguments requirement_score {vec}.

End Extraction.

(** ** [OccupationInferenceService]
       (app/services/occupation_inference_service.py) *)

Module Inference.

(** One dictionary of the list [infer_occupations] returns. *)
Record inferred : Type := mkInferred {
  titulo : string;
  codigo : option string;
  score : Q;
  confidence : confidence_level
}.

(** [occupation_scores[title].append(score)], the list being created at
    the end of the dictionary when the title is new. *)
Fixpoint dict_append (d : list (string * list Q)) (title : string) (v : Q)
  : list (string * list Q) :=
  match d with
  | [] => [(title, [v])]
  | (k, vs) :: d' =>
      if String.eqb k title then (k, vs ++ [v]) :: d'
      else (k, vs) :: dict_append d' title v
  end.

Section Service.

Variable vec : Type.
Variable cos_sim : vec -> vec -> Q.

(** The service: the registry of occupations, each a pair of its
    ["codigo"] and its ["titulo"], and the matcher. *)
Record OccupationInferenceService : Type := mkService {
  occupations : list (string * string);
  skills_matcher : SkillsMatcher vec
}.

(** The code of a title: the first occupation of the registry with this
    title, [None] if there is none. *)
Definition occupation_code (self : OccupationInferenceService)
    (occupation_title : string) : option string :=
  option_map fst
    (find (fun occ => String.eqb (snd occ) occupation_title)
          (occupations self)).

Definition keyword_step (self : OccupationInferenceService) (threshold : Q)
    (occupation_scores : list (string * list Q)) (keyword : string)
  : list (string * list Q) :=
  if String.length (strip keyword) <? 3 then occupation_scores
  else
    let results :=
      find_similar cos_sim (skills_matcher self) keyword 10 threshold in
    fold_left (fun d hit => dict_append d (fst hit) (snd hit))
              results occupation_scores.

Definition tier (avg_score : Q) : confidence_level :=
  if Qgt_bool avg_score (80 # 100) then high
  else if Qgt_bool avg_score (70 # 100) then medium
  else low.

Definition consolidate (self : OccupationInferenceService)
    (entry : string * list Q) : inferred :=
  let '(occupation_title, scores) := entry in
  let avg_score :=
    match scores with
    | [] => 0%Q
    | _ :: _ => ratio scores (List.length scores)
    end in
  {| titulo := occupation_title;
     codigo := occupation_code self occupation_title;
     score := round4 avg_score;
     confidence := tier avg_score |}.

(** [infer_occupations], from the keywords that
    [extract_professional_context] found in the text (its regular
    expressions are not modelled; [keywords] is [context["keywords"]] in
    the order in which the loop visits it). *)
Definition infer_occupations (self : OccupationInferenceService)
    (keywords : list string) (top_k : Z) (threshold : Q) : list inferred :=
  match keywords with
  | [] => []
  | _ :: _ =>
      let occupation_scores :=
        fold_left (keyword_step self threshold) keywords [] in
      let final_occupations := map (consolidate self) occupation_scores in
      take top_k (sort_desc score final_occupations)
  end.

(** *** The hits a title collects

    All pairs (title, score) returned for the keywords that are queried,
    in the order of the queries, and the scores among them of one title. *)
Definition queried (keyword : string) : bool :=
  negb (String.length (strip keyword) <? 3).

Definition hits (self : OccupationInferenceService) (keywords : list string)
    (threshold : Q) : list (string * Q) :=
  flat_map (fun k => find_similar cos_sim (skills_matcher self) k 10 threshold)
           (filter queried keywords).

Definition scores_for (title : string) (l : list (string * Q)) : list Q :=
  map snd (filter (fun hit => String.eqb (fst hit) title) l).

Definition mean (l : list Q) : Q := ratio l (List.length l).

(** The dictionary [occupation_scores] after all the hits [l]: one key per
    title, in the order in which the titles were first hit, with the
    scores of the title in the order of the hits. *)
Definition grouped (l : list (string * Q)) : list (string * list Q) :=
  map (fun t => (t, scores_for t l)) (fromkeys (map fst l)).

End Service.

Arguments occupations {vec}.
Arguments skills_matcher {vec}.
Arguments mkService {vec}.
Arguments occupation_code {vec}.
Arguments keyword_step {vec}.
Arguments consolidate {vec}.
Arguments infer_occupations {vec}.
Arguments hits {vec}.

End Inference.

(** ** A table-driven oracle for concrete runs

    A vector is the text itself; the similarity of two texts is 1 when
    they are equal, the entry of the table when there is one, 0 otherwise. *)

Module Demo.

Definition enc (s : string) : string := s.

Fixpoint table_sim (table : list (string * string * Q)) (a b : string) : Q :=
  match table with
  | [] => 0%Q
  | (x, y, v) :: rest =>
      if String.eqb x a && String.eqb y b then v else table_sim rest a b
  end.

Definition cos (table : list (string * string * Q)) (a b : string) : Q :=
  if String.eqb a b then 1%Q else table_sim table a b.

(** A matcher after [build_corpus] on the given terms. *)
Definition built (terms : list string) : SkillsMatcher string :=
  match build_corpus (new_matcher enc) terms with
  | Returned self => self
  | Raised _ => new_matcher enc
  end.

(** The similarities of the runs below. *)
Definition table : list (string * string * Q) :=
  [("python developer", "desenvolvedor python", 82 # 100);
   ("python developer", "enfermeiro", 10 # 100);
   ("engenharia civil", "engenheiro civil", 80004 # 100000);
   ("obras", "engenheiro civil", 75 # 100);
   ("obras", "pedreiro", 75 # 100)]%string.

Definition sim : string -> string -> Q := cos table.

Definition matcher : SkillsMatcher string :=
  built ["Desenvolvedor Python "; "enfermeiro"; "  "; "ENFERMEIRO";
         "Engenheiro Civil"; "pedreiro"]%string.

(** A service whose index is built, and one whose index is not. *)
Definition extraction : Extraction.SkillExtractionService string :=
  Extraction.mkService matcher.

Definition extraction_unbuilt : Extraction.SkillExtractionService string :=
  Extraction.mkService (new_matcher enc).

Definition inference : Inference.OccupationInferenceService string :=
  Inference.mkService
    [("2142", "engenheiro civil"); ("7152", "pedreiro")]%string matcher.

End Demo.

(** * The rest of the modules

    The other methods of [SkillsMatcher], [SkillExtractionService] and
    [OccupationInferenceService], the service of
    [app/services/skills_service.py] and the classifier of
    [app/routes/extraction.py]. *)

(** ** Letters with accents

    The code points above 127 that the texts of the code use. *)

Module Latin1.

Definition a_acute : string := String "225"%char EmptyString.
Definition a_tilde : string := String "227"%char EmptyString.
Definition c_cedilla : string := String "231"%char EmptyString.
Definition e_acute : string := String "233"%char EmptyString.
Definition o_acute : string := String "243"%char EmptyString.
Definition o_circumflex : string := String "244"%char EmptyString.

End Latin1.

(** ** Python dictionaries with insertion order *)

Module PyDict.

(** [d[k] = v]: a key already present keeps its place and gets the new
    value, a new key goes to the end. *)
Fixpoint set {V : Type} (d : list (string * V)) (k : string) (v : V)
  : list (string * V) :=
  match d with
  | [] => [(k, v)]
  | (k', v') :: d' =>
      if String.eqb k' k then (k', v) :: d' else (k', v') :: set d' k v
  end.

(** [d.get(k)] *)
Definition get {V : Type} (d : list (string * V)) (k : string) : option V :=
  option_map snd (find (fun kv => String.eqb (fst kv) k) d).

Definition keys {V : Type} (d : list (string * V)) : list string :=
  map fst d.

End PyDict.

(** [max(a, b)] on floats. *)
Definition Qmax_bool (a b : Q) : Q := if Qle_bool a b then b else a.

(** [f"{x:.1f}"]: the number with one decimal. *)
Definition round1 (x : Q) : Q := Qmake (round_half_even (x * 10)) 10.

(** ** [SkillsMatcher], the other methods *)

Section MatcherMore.

Variable vec : Type.
Variable cos_sim : vec -> vec -> Q.

(** [batch_find_similar] *)
Definition batch_find_similar (self : SkillsMatcher vec)
    (queries : list string) (top_k : Z) (threshold : Q)
  : list (string * list (string * Q)) :=
  fold_left
    (fun results query =>
       PyDict.set results query (find_similar cos_sim self query top_k threshold))
    queries [].

(** [calculate_similarity]; without a model the call to the encoder raises,
    the handler returns 0.0. *)
Definition calculate_similarity (self : SkillsMatcher vec)
    (text1 text2 : string) : Q :=
  match model self with
  | None => 0%Q
  | Some enc => cos_sim (enc (lower (strip text1))) (enc (lower (strip text2)))
  end.

(** The dictionary [expand_skills] returns; an item of ["similar_skills"]
    is the pair of its ["skill"] and its ["similarity_score"]. *)
Record expansion : Type := mkExpansion {
  original_skill : string;
  similar_skills : list (string * Q);
  total_found : nat;
  threshold_used : Q
}.

(** [expand_skills]. [find_similar] catches its own exceptions and the
    construction of the dictionary raises none, so the handler that
    returns the dictionary with ["error"] is never entered. *)
Definition expand_skills (self : SkillsMatcher vec) (skill : string)
    (threshold : Q) : expansion :=
  let similar := find_similar cos_sim self skill 10 threshold in
  {| original_skill := skill;
     similar_skills := map (fun s => (fst s, snd s)) similar;
     total_found := List.length similar;
     threshold_used := threshold |}.

(** The list [results] of [find_similar] after the sort and before the
    slice [[:top_k]]; the empty list where [find_similar] returns early. *)
Definition full_ranking (self : SkillsMatcher vec) (query : string)
    (threshold : Q) : list (string * Q) :=
  match corpus_embeddings self with
  | None => []
  | Some embeddings =>
      if List.length (corpus self) =? 0 then []
      else
        match model self with
        | None => []
        | Some enc =>
            let query_embedding := enc (lower (strip query)) in
            let similarities := map (cos_sim query_embedding) embeddings in
            match above_threshold self threshold 0 similarities with
            | None => []
            | Some results => sort_desc snd results
            end
        end
  end.

(** A stored text: lower-cased, trimmed, not empty. *)
Definition normalized (text : string) : Prop :=
  lower text = text /\ strip text = text /\ text <> EmptyString.

End MatcherMore.

Arguments full_ranking {vec}.
Arguments batch_find_similar {vec}.
Arguments calculate_similarity {vec}.
Arguments expand_skills {vec}.

(** ** [SkillExtractionService.extract_resume_skills] *)

Module ResumeExtraction.

Import Extraction.

(** The dictionary [extract_resume_skills] returns; ["match_rate"] is the
    number printed before the [%] sign. *)
Record resume_skills : Type := mkResumeSkills {
  total_skills_found : nat;
  successful_matches : nat;
  match_rate : Q;
  skills : list skill_match
}.

(** Truth value of [m['matched_skill']]: a text that is not empty. *)
Definition has_match (m : skill_match) : bool :=
  match matched_skill m with
  | Some text => truthy text
  | None => false
  end.

Section Service.

Variable vec : Type.
Variable cos_sim : vec -> vec -> Q.

(** The dictionary [match_skills_with_bert] appends for a candidate
    [skill], already trimmed. *)
Definition entry_for (self : SkillExtractionService vec) (threshold : Q)
    (top_k : Z) (skill : string) : skill_match :=
  match find_similar cos_sim (skills_matcher self) skill top_k threshold with
  | best_match :: _ =>
      mkSkillMatch skill (Some (fst best_match)) (snd best_match)
        (if Qgt_bool (snd best_match) (85 # 100) then high else medium) None
  | [] =>
      mkSkillMatch skill None 0 low (Some "Sem match acima do threshold"%string)
  end.

(** The candidates [match_skills_with_bert] keeps. *)
Definition valid (skill : string) : bool := truthy (strip skill).

(** [result.get("match_score")] and the like, as the route reads the
    answer of [calculate_profile_match]; [None] when the key is absent. *)
Definition get_match_score (p : profile_match) : option Q :=
  match p with
  | ErrorDict _ => None
  | NoSkillsDict s _ _ _ _ => Some s
  | MatchDict r => Some (match_score r)
  end.

Definition get_match_percentage (p : profile_match) : option Z :=
  match p with
  | ErrorDict _ => None
  | NoSkillsDict _ n _ _ _ => Some n
  | MatchDict r => Some (match_percentage r)
  end.

Definition get_matched_skills (p : profile_match) : option (list string) :=
  match p with
  | ErrorDict _ => None
  | NoSkillsDict _ _ _ m _ => Some m
  | MatchDict r => Some (matched_skills r)
  end.

Definition get_missing_skills (p : profile_match) : option (list string) :=
  match p with
  | ErrorDict _ => None
  | NoSkillsDict _ _ _ _ x => Some x
  | MatchDict r => Some (missing_skills r)
  end.

Definition get_level (p : profile_match) : option level_name :=
  match p with
  | MatchDict r => Some (level r)
  | _ => None
  end.

(** The answer of a call that returned. *)
Definition answer_of {A : Type} (o : outcome A * list query_record)
  : option A :=
  match fst o with
  | Returned a => Some a
  | Raised _ => None
  end.

(** [extract_resume_skills], from the list [all_skills] of the terms that
    the two passes of regular expressions found in the text, duplicates
    removed (the regular expressions are not modelled; [all_skills] is
    [list(set(regex_skills + llm_skills))] in the order of that list).
    [match_skills_with_bert] raises nothing, so the handler that logs and
    re-raises is never entered; the calls to the index come with the
    answer. *)
Definition extract_resume_skills (self : SkillExtractionService vec)
    (all_skills : list string) (threshold : Q) (top_k : Z)
  : outcome resume_skills * list query_record :=
  match match_skills_with_bert cos_sim self all_skills threshold top_k with
  | (Raised e, log) => (Raised e, log)
  | (Returned mapped_skills, log) =>
      let successful_matches := List.length (filter has_match mapped_skills) in
      (Returned
         {| total_skills_found := List.length all_skills;
            successful_matches := successful_matches;
            match_rate :=
              match all_skills with
              | [] => 0%Q
              | _ :: _ =>
                  round1 (inject_Z (Z.of_nat successful_matches)
                          / inject_Z (Z.of_nat (List.length all_skills))
                          * 100)
              end;
            skills := mapped_skills |},
       log)
  end.

(** [SkillExtractionService.__init__], the model [enc] having been
    loaded; [all_skills] is what [cbo_loader.get_all_skills()] returned.
    The corpus is built only when that list is not empty. *)
Definition __init__ (enc : string -> vec) (all_skills : list string)
  : outcome (SkillExtractionService vec) :=
  let matcher := new_matcher enc in
  match all_skills with
  | [] => Returned (mkService matcher)
  | _ :: _ =>
      match build_corpus matcher all_skills with
      | Returned built => Returned (mkService built)
      | Raised e => Raised e
      end
  end.

End Service.

Arguments entry_for {vec}.
Arguments extract_resume_skills {vec}.
Arguments __init__ {vec}.

End ResumeExtraction.

(** ** [OccupationInferenceService], the other methods *)

Module OccupationInference.

Import Inference.

(** The answer of [infer_primary_occupation]: the first inferred
    occupation, or the dictionary that says that none was inferred
    (["titulo"] and ["codigo"] are [None], ["score"] is 0.0,
    ["confidence"] is ["low"], ["error"] is a constant text). *)
Inductive primary : Type :=
| Occupation (o : inferred)
| NoOccupation.

(** [occupation.get("titulo")] and [occupation.get("score", 0)]. *)
Definition primary_titulo (p : primary) : option string :=
  match p with
  | Occupation o => Some (titulo o)
  | NoOccupation => None
  end.

Definition primary_score (p : primary) : Q :=
  match p with
  | Occupation o => score o
  | NoOccupation => 0%Q
  end.

Definition primary_confidence (p : primary) : confidence_level :=
  match p with
  | Occupation o => confidence o
  | NoOccupation => low
  end.

(** [_load_occupations], from the rows of the table of occupations, each
    the pair of [str(row["CODIGO"])] and [str(row["TITULO"])]; [None] when
    the table was not loaded. *)
Definition _load_occupations (ocupacoes_df : option (list (string * string)))
  : list (string * string) :=
  match ocupacoes_df with
  | None => []
  | Some rows => map (fun row => (fst row, lower (strip (snd row)))) rows
  end.

Section Service.

Variable vec : Type.
Variable cos_sim : vec -> vec -> Q.

(** [__init__], the model [enc] having been loaded: the registry is read
    and, when it is not empty, the corpus is built from its titles. *)
Definition __init__ (enc : string -> vec)
    (ocupacoes_df : option (list (string * string)))
  : outcome (OccupationInferenceService vec) :=
  let occupations := _load_occupations ocupacoes_df in
  let matcher := new_matcher enc in
  match occupations with
  | [] => Returned (mkService occupations matcher)
  | _ :: _ =>
      match build_corpus matcher (map snd occupations) with
      | Returned built => Returned (mkService occupations built)
      | Raised e => Raised e
      end
  end.

(** [infer_primary_occupation], from the keywords of the text. *)
Definition infer_primary_occupation (self : OccupationInferenceService vec)
    (keywords : list string) (threshold : Q) : primary :=
  match infer_occupations cos_sim self keywords 1 threshold with
  | first :: _ => Occupation first
  | [] => NoOccupation
  end.

End Service.

Arguments __init__ {vec}.
Arguments infer_primary_occupation {vec}.

End OccupationInference.

(** ** [SkillsMatchingService] (app/services/skills_service.py) *)

Module SkillsService.

(** The CBO loader, by the two look-ups the service uses (both are
    queries on the loaded tables that catch their own errors):
    [get_synonyms(skill)] and [search_occupations(query, limit)], the
    latter giving for each occupation found its ["titulo"] and its
    ["codigo"]. *)
Record CBODataLoader : Type := mkLoader {
  get_synonyms : string -> list string;
  search_occupations : string -> Z -> list (string * string)
}.

(** One item of ["matches"]. *)
Record enhanced_match : Type := mkEnhanced {
  matched_skill : string;
  similarity_score : Q;
  synonyms : list string;
  related_occupations : list (string * string)
}.

(** The value stored for one skill. *)
Record skill_result : Type := mkSkillResult {
  matched : bool;
  matches : list enhanced_match;
  total_matches : nat;
  threshold_used : Q
}.

(** The answer of [match_unrecognized_skills]: the dictionary with the
    single key ["error"], or the results by skill. *)
Inductive match_answer : Type :=
| MatchError (error : string)
| MatchResults (results : list (string * skill_result)).

(** One item of ["skills_processed"]. *)
Record processed_skill : Type := mkProcessed {
  original : string;
  normalized : string;
  high_confidence_matches : list (string * Q);
  is_recognized : bool
}.

Record enriched_profile : Type := mkProfile {
  input_skills_count : nat;
  skills_processed : list processed_skill;
  total_original : nat;
  confidence_threshold : Q
}.

Inductive enrich_answer : Type :=
| EnrichError (error : string)
| Enriched (profile : enriched_profile).

(** The dictionary of [get_model_info], without the names of the model
    and of the device. *)
Record model_info : Type := mkInfo {
  model_ready : bool;
  corpus_size : nat;
  corpus_built : bool
}.

Section Service.

Variable vec : Type.
Variable cos_sim : vec -> vec -> Q.

Record SkillsMatchingService : Type := mkService {
  cbo_loader : CBODataLoader;
  skills_matcher : SkillsMatcher vec
}.

(** The body of the inner loop of [match_unrecognized_skills]. *)
Definition enhance (self : SkillsMatchingService) (hit : string * Q)
  : enhanced_match :=
  let '(matched_skill, score) := hit in
  let synonyms := get_synonyms (cbo_loader self) matched_skill in
  let occupations := search_occupations (cbo_loader self) matched_skill 2 in
  {| matched_skill := matched_skill;
     similarity_score := round4 score;
     synonyms := take 3 synonyms;
     related_occupations := take 2 occupations |}.

Definition unrecognized_step (self : SkillsMatchingService) (top_k : Z)
    (threshold : Q)
    (st : list (string * skill_result) * list query_record) (skill : string)
  : list (string * skill_result) * list query_record :=
  let '(results, log) := st in
  if negb (truthy (strip skill)) then (results, log)
  else
    let similar :=
      find_similar cos_sim (skills_matcher self) skill top_k threshold in
    let enhanced_matches := map (enhance self) similar in
    (PyDict.set results (strip (lower skill))
       {| matched := 0 <? List.length enhanced_matches;
          matches := enhanced_matches;
          total_matches := List.length enhanced_matches;
          threshold_used := threshold |},
     log ++ [mkQuery skill top_k threshold]).

(** [match_unrecognized_skills]; nothing in its [try] block raises. *)
Definition match_unrecognized_skills (self : SkillsMatchingService)
    (unrecognized_skills : list string) (top_k : Z) (threshold : Q)
  : match_answer * list query_record :=
  if negb (is_corpus_ready (skills_matcher self)) then
    (MatchError
       ("Modelo n" ++ Latin1.a_tilde ++ "o est" ++ Latin1.a_acute
        ++ " pronto para processamento")%string,
     [])
  else
    let '(results, log) :=
      fold_left (unrecognized_step self top_k threshold)
                unrecognized_skills ([], []) in
    (MatchResults results, log).

(** [confident_matches] of [enrich_skills_profile]. *)
Definition confident_matches (self : SkillsMatchingService)
    (skill_clean : string) (confidence_threshold : Q) : list (string * Q) :=
  filter (fun s => Qle_bool confidence_threshold (snd s))
         (find_similar cos_sim (skills_matcher self) skill_clean 5 (50 # 100)).

Definition enrich_step (self : SkillsMatchingService)
    (confidence_threshold : Q)
    (st : list processed_skill * list query_record) (skill : string)
  : list processed_skill * list query_record :=
  let '(processed, log) := st in
  if negb (truthy (strip skill)) then (processed, log)
  else
    let skill_clean := strip (lower skill) in
    let confident := confident_matches self skill_clean confidence_threshold in
    (processed ++
       [{| original := skill;
           normalized := skill_clean;
           high_confidence_matches :=
             map (fun m => (fst m, round4 (snd m))) confident;
           is_recognized := 0 <? List.length confident |}],
     log ++ [mkQuery skill_clean 5 (50 # 100)]).

(** [enrich_skills_profile]; nothing in its [try] block raises. *)
Definition enrich_skills_profile (self : SkillsMatchingService)
    (skills : list string) (confidence_threshold : Q)
  : enrich_answer * list query_record :=
  if negb (is_corpus_ready (skills_matcher self)) then
    (EnrichError
       ("Modelo n" ++ Latin1.a_tilde ++ "o est" ++ Latin1.a_acute
        ++ " pronto")%string,
     [])
  else
    let '(processed, log) :=
      fold_left (enrich_step self confidence_threshold) skills ([], []) in
    (Enriched
       {| input_skills_count := List.length skills;
          skills_processed := processed;
          total_original := List.length skills;
          confidence_threshold := confidence_threshold |},
     log).

(** [get_model_info] *)
Definition get_model_info (self : SkillsMatchingService) : model_info :=
  {| model_ready := is_corpus_ready (skills_matcher self);
     corpus_size := List.length (corpus (skills_matcher self));
     corpus_built := is_some (corpus_embeddings (skills_matcher self)) |}.

(** [SkillsMatchingService.__init__], the loader and the model [enc]
    having been loaded; [all_skills] is what
    [cbo_loader.get_all_skills()] returned. *)
Definition __init__ (loader : CBODataLoader) (enc : string -> vec)
    (all_skills : list string) : outcome SkillsMatchingService :=
  let matcher := new_matcher enc in
  match all_skills with
  | [] => Returned (mkService loader matcher)
  | _ :: _ =>
      match build_corpus matcher all_skills with
      | Returned built => Returned (mkService loader built)
      | Raised e => Raised e
      end
  end.

End Service.

Arguments __init__ {vec}.

Arguments cbo_loader {vec}.
Arguments skills_matcher {vec}.
Arguments mkService {vec}.
Arguments enhance {vec}.
Arguments unrecognized_step {vec}.
Arguments match_unrecognized_skills {vec}.
Arguments confident_matches {vec}.
Arguments enrich_step {vec}.
Arguments enrich_skills_profile {vec}.
Arguments get_model_info {vec}.

End SkillsService.

(** ** The classifier of [app/routes/extraction.py] *)

Module ExtractionRoutes.

Import Inference OccupationInference Latin1.

Inductive resume_type : Type := technical | non_technical | unknown.

Definition technical_keywords : list string :=
  ["desenvolvedor"; "programmer"; "engineer"; "engenheiro"; "analista";
   "administrador"; "devops"; "arquiteto"; "data"; "cientista";
   "especialista em"; ("t" ++ e_acute ++ "cnico");
   "operacional"; "sre"; "infra"; "programador"; "web"; "mobile";
   "fullstack"; "backend"; "frontend"; "qa"; "tester";
   ("seguran" ++ c_cedilla ++ "a da informa" ++ c_cedilla ++ a_tilde
      ++ "o");
   "iot"; "cloud"; "banco de dados"; "database"; "sistemas"; "ti";
   "tecnologia"; "software"; "hardware"; "network";
   ("suporte t" ++ e_acute ++ "cnico")]%string.

Definition non_technical_keywords : list string :=
  [("m" ++ e_acute ++ "dico"); "advogado"; "enfermeiro";
   ("psic" ++ o_acute ++ "logo");
   ("odont" ++ o_acute ++ "logo"); "professor"; "educador";
   "contador"; "auditor"; "consultor"; "gerente"; "diretor"; "presidente";
   "cfo"; "ceo"; "rh"; "recursos humanos"; "recrutador"; "analista de rh";
   "vendedor"; "comercial"; "vendas"; "marketing";
   ("designer gr" ++ a_acute ++ "fico"); "designer";
   "arquiteto"; "engenheiro civil";
   ("agr" ++ o_circumflex ++ "nomo");
   ("veterin" ++ a_acute ++ "rio"); "cardiologista";
   "dermatologista"; "psiquiatra";
   ("cirurgi" ++ a_tilde ++ "o")]%string.

(** [_detect_resume_type], on an answer of [infer_primary_occupation]. *)
Definition _detect_resume_type (occupation : primary) : resume_type :=
  match primary_titulo occupation with
  | None => unknown
  | Some titulo =>
      if negb (truthy titulo) then unknown
      else
        let titulo_lower := lower titulo in
        if existsb (fun keyword => contains titulo_lower keyword)
                   technical_keywords
        then technical
        else if existsb (fun keyword => contains titulo_lower keyword)
                        non_technical_keywords
        then non_technical
        else if Qgt_bool (primary_score occupation) (75 # 100)
        then technical
        else non_technical
  end.

End ExtractionRoutes.

(** ** Data for concrete runs *)

Module Sample.

Import Inference SkillsService.

Definition loader : CBODataLoader :=
  {| get_synonyms :=
       fun skill =>
         if String.eqb skill "desenvolvedor python"
         then ["programador python"; "dev python"; "pythonista";
               "engenheiro python"]%string
         else [];
     search_occupations :=
       fun query limit =>
         if String.eqb query "desenvolvedor python"
         then [("desenvolvedor python", "317105")]%string
         else [] |}.

Definition skills_service : SkillsMatchingService string :=
  SkillsService.mkService loader Demo.matcher.

Definition civil_engineer : inferred :=
  mkInferred "engenheiro civil" (Some "2142"%string) (8000 # 10000) high.

Definition marketing_manager : inferred :=
  mkInferred "gerente de marketing" None (7200 # 10000) medium.

Definition mason : inferred :=
  mkInferred "pedreiro" (Some "7152"%string) (7500 # 10000) medium.

End Sample.

(** * Properties *)

Module PyStrFacts.

Import PyStr.

Ltac each_char c := destruct c as [[] [] [] [] [] [] [] []].

Lemma lower_char_idem c : lower_char (lower_char c) = lower_char c.
Proof. each_char c; reflexivity. Qed.

Lemma lower_upper_char c : lower_char (upper_char c) = lower_char c.
Proof. each_char c; reflexivity. Qed.

Lemma isspace_lower_char c : isspace (lower_char c) = isspace c.
Proof. each_char c; reflexivity. Qed.

Lemma lower_idem s : lower (lower s) = lower s.
Proof.
  induction s as [|c s IH]; simpl; [reflexivity|].
  now rewrite lower_char_idem, IH.
Qed.

Lemma lower_truthy s : truthy (lower s) = truthy s.
Proof. destruct s; reflexivity. Qed.

Lemma truthy_false s : truthy s = false <-> s = EmptyString.
Proof. destruct s; simpl; split; congruence. Qed.

Lemma lstrip_lower s : lstrip (lower s) = lower (lstrip s).
Proof.
  induction s as [|c s IH]; simpl; [reflexivity|].
  rewrite isspace_lower_char. destruct (isspace c); [exact IH|reflexivity].
Qed.

Lemma rstrip_lower s : rstrip (lower s) = lower (rstrip s).
Proof.
  induction s as [|c s IH]; simpl; [reflexivity|].
  rewrite IH, isspace_lower_char.
  destruct (rstrip s); simpl; [destruct (isspace c)|]; reflexivity.
Qed.

Lemma strip_lower s : strip (lower s) = lower (strip s).
Proof. unfold strip. now rewrite lstrip_lower, rstrip_lower. Qed.

Lemma rstrip_idem s : rstrip (rstrip s) = rstrip s.
Proof.
  induction s as [|c s IH]; simpl; [reflexivity|].
  destruct (rstrip s) as [|d r] eqn:E.
  - destruct (isspace c) eqn:Ec; simpl; [reflexivity|now rewrite Ec].
  - change (rstrip (String c (String d r)) = String c (String d r)).
    cbn [rstrip] in *. now rewrite IH.
Qed.

Lemma lstrip_clean_head s : clean_head (lstrip s).
Proof.
  induction s as [|c s IH]; simpl; [exact I|].
  destruct (isspace c) eqn:E; [exact IH|exact E].
Qed.

Lemma lstrip_fix s : clean_head s -> lstrip s = s.
Proof. destruct s as [|c s]; simpl; [reflexivity|]. now intros ->. Qed.

Lemma rstrip_clean_head s : clean_head s -> clean_head (rstrip s).
Proof.
  destruct s as [|c s]; simpl; [exact (fun H => H)|]. intros E.
  destruct (rstrip s); [rewrite E|]; exact E.
Qed.

Lemma strip_idem s : strip (strip s) = strip s.
Proof.
  unfold strip.
  rewrite (lstrip_fix (rstrip (lstrip s))).
  - apply rstrip_idem.
  - apply rstrip_clean_head, lstrip_clean_head.
Qed.

Lemma lstrip_space_app pre s :
  all_space pre = true -> lstrip (pre ++ s) = lstrip s.
Proof.
  induction pre as [|c pre IH]; simpl; [reflexivity|].
  intros H. apply andb_true_iff in H as [Hc Hp]. rewrite Hc. now apply IH.
Qed.

Lemma rstrip_all_space s : all_space s = true -> rstrip s = EmptyString.
Proof.
  induction s as [|c s IH]; simpl; [reflexivity|].
  intros H. apply andb_true_iff in H as [Hc Hp]. now rewrite IH, Hc.
Qed.

Lemma lstrip_all_space s : all_space s = true -> lstrip s = EmptyString.
Proof.
  induction s as [|c s IH]; simpl; [reflexivity|].
  intros H. apply andb_true_iff in H as [Hc Hp]. now rewrite Hc, IH.
Qed.

Lemma rstrip_app_space s post :
  all_space post = true -> rstrip (s ++ post) = rstrip s.
Proof.
  intros H. induction s as [|c s IH]; simpl.
  - now apply rstrip_all_space.
  - now rewrite IH.
Qed.

Lemma strip_app_space s post :
  all_space post = true -> strip (s ++ post) = strip s.
Proof.
  intros H. unfold strip. induction s as [|c s IH]; simpl.
  - now rewrite (lstrip_all_space post H).
  - destruct (isspace c); [exact IH|].
    exact (rstrip_app_space (String c s) post H).
Qed.

Lemma strip_padding pre core post :
  all_space pre = true -> all_space post = true ->
  strip (pre ++ core ++ post) = strip core.
Proof.
  intros Hpre Hpost. unfold strip at 1.
  rewrite (lstrip_space_app pre _ Hpre).
  exact (strip_app_space core post Hpost).
Qed.

Lemma same_letters_lower s t : same_letters s t -> lower s = lower t.
Proof.
  induction 1 as [|c d s t Hd _ IH]; simpl; [reflexivity|].
  rewrite IH. f_equal.
  destruct Hd as [-> | [-> | ->]];
    [reflexivity | now rewrite lower_char_idem | now rewrite lower_upper_char].
Qed.

(** The text [find_similar] embeds is the same for two variants. *)
Lemma variant_normalized q q' :
  variant q q' -> lower (strip q) = lower (strip q').
Proof.
  intros (pre & post & pre' & post' & core & core' & -> & -> & H1 & H2 & H3 & H4 & HL).
  rewrite !strip_padding by assumption.
  rewrite <- !strip_lower. now rewrite (same_letters_lower _ _ HL).
Qed.

(** [contains] is occurrence as a contiguous block. *)
Lemma prefix_app sub s :
  String.prefix sub s = true <-> exists t, s = (sub ++ t)%string.
Proof.
  revert s. induction sub as [|c sub IH]; intros s.
  - simpl. destruct s; split; eauto.
  - destruct s as [|d s]; simpl;
      [split; [discriminate|intros [t Ht]; discriminate]|].
    destruct (ascii_dec c d) as [->|Hne].
    + rewrite IH. split; intros [t Ht]; exists t; [now rewrite Ht|].
      simpl in Ht. congruence.
    + split; [discriminate|intros [t Ht]; simpl in Ht; congruence].
Qed.

Lemma contains_spec s sub :
  contains s sub = true <-> exists a b, s = (a ++ sub ++ b)%string.
Proof.
  induction s as [|c s IH].
  - cbn [contains]. rewrite orb_false_r, prefix_app. split.
    + intros [t Ht]. now exists EmptyString, t.
    + intros (a & b & H). destruct a; [now exists b|discriminate].
  - cbn [contains]. rewrite orb_true_iff, prefix_app, IH. split.
    + intros [[t Ht] | (a & b & H)].
      * now exists EmptyString, t.
      * exists (String c a), b. simpl. now rewrite H.
    + intros (a & b & H). destruct a as [|d a].
      * left. now exists b.
      * right. exists a, b. simpl in H. congruence.
Qed.

End PyStrFacts.

Module PyListFacts.

Import PyList.

Section Sorting.

Variable A : Type.
Variable key : A -> Q.

Local Abbreviation insert_desc := (PyList.insert_desc key).
Local Abbreviation sort_desc := (PyList.sort_desc key).
Local Abbreviation desc := (PyList.desc key).
Local Abbreviation tied := (PyList.tied key).

Lemma insert_desc_perm x l : Permutation (x :: l) (insert_desc x l).
Proof.
  induction l as [|y l IH]; simpl; [reflexivity|].
  destruct (Qle_bool (key y) (key x)); [reflexivity|].
  rewrite perm_swap. now constructor.
Qed.

Lemma sort_desc_perm l : Permutation l (sort_desc l).
Proof.
  induction l as [|x l IH]; simpl; [constructor|].
  rewrite <- insert_desc_perm. now constructor.
Qed.

Lemma sort_desc_length l : List.length (sort_desc l) = List.length l.
Proof. symmetry. apply Permutation_length, sort_desc_perm. Qed.

Lemma insert_desc_sorted x l :
  StronglySorted desc l -> StronglySorted desc (insert_desc x l).
Proof.
  induction l as [|y l IH]; simpl; intros Hs.
  - constructor; [constructor|constructor].
  - destruct (Qle_bool (key y) (key x)) eqn:E.
    + apply Qle_bool_iff in E. inversion Hs as [|? ? Hl Hy]; subst.
      constructor; [exact Hs|]. constructor; [exact E|].
      rewrite Forall_forall in *. intros z Hz. unfold desc in *.
      eapply Qle_trans; [apply (Hy z Hz)|exact E].
    + inversion Hs as [|? ? Hl Hy]; subst. constructor; [now apply IH|].
      assert (Hxy : (key x <= key y)%Q).
      { apply Qlt_le_weak, Qnot_le_lt. intros H.
        apply Qle_bool_iff in H. congruence. }
      rewrite Forall_forall in *. intros z Hz.
      apply (Permutation_in _ (Permutation_sym (insert_desc_perm x l))) in Hz.
      destruct Hz as [<- | Hz]; [exact Hxy|now apply Hy].
Qed.

Lemma sort_desc_sorted l : StronglySorted desc (sort_desc l).
Proof.
  induction l as [|x l IH]; simpl; [constructor|].
  now apply insert_desc_sorted.
Qed.

Lemma insert_desc_stable s x l :
  filter (tied s) (insert_desc x l) = filter (tied s) (x :: l).
Proof.
  induction l as [|y l IH]; [reflexivity|].
  cbn [insert_desc]. destruct (Qle_bool (key y) (key x)) eqn:E; [reflexivity|].
  cbn [filter] in *. rewrite IH.
  destruct (tied s x) eqn:Ex; [|reflexivity].
  destruct (tied s y) eqn:Ey; [|reflexivity].
  exfalso. unfold tied in *. apply Qeq_bool_iff in Ex, Ey.
  assert (H : Qle_bool (key y) (key x) = true).
  { apply Qle_bool_iff. rewrite Ex, Ey. apply Qle_refl. }
  congruence.
Qed.

Lemma sort_desc_stable s l :
  filter (tied s) (sort_desc l) = filter (tied s) l.
Proof.
  induction l as [|x l IH]; [reflexivity|].
  cbn [sort_desc fold_right]. rewrite insert_desc_stable.
  cbn [filter]. fold (sort_desc l). now rewrite IH.
Qed.

End Sorting.

Lemma mem_In x l : mem x l = true <-> In x l.
Proof.
  unfold mem. rewrite existsb_exists. split.
  - intros (y & Hy & E). apply String.eqb_eq in E. now subst.
  - intros H. exists x. split; [exact H|apply String.eqb_refl].
Qed.

Lemma mem_not_In x l : mem x l = false <-> ~ In x l.
Proof.
  rewrite <- mem_In. destruct (mem x l); split; congruence.
Qed.

Lemma fromkeys_snoc l x :
  fromkeys (l ++ [x]) = fromkeys_step (fromkeys l) x.
Proof. unfold fromkeys. now rewrite fold_left_app. Qed.

Lemma fromkeys_In l y : In y (fromkeys l) <-> In y l.
Proof.
  induction l as [|x l IH] using rev_ind; [reflexivity|].
  rewrite fromkeys_snoc. unfold fromkeys_step.
  destruct (mem x (fromkeys l)) eqn:E.
  - apply mem_In in E. rewrite in_app_iff. simpl. rewrite IH in *.
    intuition (subst; auto).
  - rewrite !in_app_iff, IH. reflexivity.
Qed.

Lemma fromkeys_NoDup l : NoDup (fromkeys l).
Proof.
  induction l as [|x l IH] using rev_ind; [constructor|].
  rewrite fromkeys_snoc. unfold fromkeys_step.
  destruct (mem x (fromkeys l)) eqn:E; [exact IH|].
  apply mem_not_In in E.
  apply (Permutation_NoDup (Permutation_cons_append (fromkeys l) x)).
  now constructor.
Qed.

Lemma index_of_app_In a l m : In a l -> index_of a (l ++ m) = index_of a l.
Proof.
  induction l as [|y l IH]; simpl; [tauto|].
  destruct (String.eqb y a) eqn:E; [reflexivity|].
  intros [H | H]; [subst; now rewrite String.eqb_refl in E|].
  now rewrite IH.
Qed.

Lemma index_of_lt a l : In a l -> index_of a l < List.length l.
Proof.
  induction l as [|y l IH]; simpl; [tauto|].
  destruct (String.eqb y a) eqn:E; [lia|].
  intros [H | H]; [subst; now rewrite String.eqb_refl in E|].
  apply IH in H. lia.
Qed.

Lemma index_of_fresh x l : ~ In x l -> index_of x (l ++ [x]) = List.length l.
Proof.
  induction l as [|y l IH]; simpl; intros H.
  - now rewrite String.eqb_refl.
  - destruct (String.eqb y x) eqn:E.
    + apply String.eqb_eq in E. tauto.
    + rewrite IH; tauto.
Qed.

Lemma StronglySorted_snoc {A : Type} (R : A -> A -> Prop) l x :
  StronglySorted R l -> Forall (fun a => R a x) l ->
  StronglySorted R (l ++ [x]).
Proof.
  induction 1 as [|a l Hs IH Ha]; simpl; intros Hx.
  - constructor; constructor.
  - inversion Hx; subst. constructor; [now apply IH|].
    apply Forall_app. split; [exact Ha|now constructor].
Qed.

Lemma StronglySorted_weaken {A : Type} (R R' : A -> A -> Prop) l :
  (forall a b, In a l -> In b l -> R a b -> R' a b) ->
  StronglySorted R l -> StronglySorted R' l.
Proof.
  intros HR. induction 1 as [|a l Hs IH Ha]; [constructor|].
  constructor.
  - apply IH. intros; apply HR; simpl; auto.
  - rewrite Forall_forall in *. intros b Hb.
    apply HR; simpl; auto.
Qed.

Lemma fromkeys_order l : StronglySorted (first_seen l) (fromkeys l).
Proof.
  induction l as [|x l IH] using rev_ind; [constructor|].
  rewrite fromkeys_snoc. unfold fromkeys_step.
  destruct (mem x (fromkeys l)) eqn:E.
  - apply (StronglySorted_weaken (first_seen l)); [|exact IH].
    intros a b Ha Hb. rewrite fromkeys_In in Ha, Hb. unfold first_seen.
    rewrite !index_of_app_In by assumption. exact (fun H => H).
  - apply mem_not_In in E. rewrite fromkeys_In in E.
    apply StronglySorted_snoc.
    + apply (StronglySorted_weaken (first_seen l)); [|exact IH].
      intros a b Ha Hb. rewrite fromkeys_In in Ha, Hb. unfold first_seen.
      rewrite !index_of_app_In by assumption. exact (fun H => H).
    + apply Forall_forall. intros a Ha. rewrite fromkeys_In in Ha.
      unfold first_seen.
      rewrite index_of_app_In, index_of_fresh by assumption.
      now apply index_of_lt.
Qed.

(** Dropping other items does not change which of two items comes first. *)
Lemma index_of_filter (p : string -> bool) a b l :
  p a = true -> p b = true ->
  index_of a (filter p l) < index_of b (filter p l) ->
  index_of a l < index_of b l.
Proof.
  intros Ha Hb. induction l as [|y l IH]; simpl; [lia|].
  destruct (p y) eqn:Ey; simpl.
  - destruct (String.eqb y a), (String.eqb y b); lia.
  - destruct (String.eqb y a) eqn:Ea;
      [apply String.eqb_eq in Ea; congruence|].
    destruct (String.eqb y b) eqn:Eb;
      [apply String.eqb_eq in Eb; congruence|].
    intros H. apply IH in H. lia.
Qed.

Lemma take_length {A : Type} (k : Z) (l : list A) :
  (Z.of_nat (List.length l) <= k)%Z -> take k l = l.
Proof.
  intros H. unfold take.
  destruct (0 <=? k)%Z eqn:E; [|apply Z.leb_gt in E; lia].
  apply firstn_all2. lia.
Qed.

Lemma take_nil {A : Type} (k : Z) : take k (@nil A) = [].
Proof. unfold take. destruct (0 <=? k)%Z; apply firstn_nil. Qed.

Lemma take_pos {A : Type} (k : Z) (l : list A) :
  (0 <= k)%Z -> take k l = firstn (Z.to_nat k) l.
Proof. intros H. unfold take. apply Z.leb_le in H. now rewrite H. Qed.

End PyListFacts.

Import PyStrFacts PyListFacts.

Section MatcherFacts.

Variable vec : Type.
Variable cos_sim : vec -> vec -> Q.

Implicit Types (enc : string -> vec) (self : SkillsMatcher vec).
Implicit Types (query : string) (top_k : Z) (threshold : Q).

Lemma reachable_inv enc self :
  reachable enc self ->
  model self = Some enc /\
  ((corpus_embeddings self = None /\ corpus self = []) \/
   corpus_embeddings self = Some (map enc (corpus self))).
Proof.
  induction 1 as [|self skills self' _ [IHm _] Hb].
  - split; [reflexivity|left; split; reflexivity].
  - unfold build_corpus in Hb. injection Hb as <-. cbn.
    split; [exact IHm|right]. unfold encode_texts. now rewrite IHm.
Qed.

Lemma above_threshold_total self threshold (g : string -> Q) pre rest :
  corpus self = pre ++ rest ->
  above_threshold self threshold (List.length pre) (map g rest)
  = Some (filter (clears threshold) (map (fun text => (text, g text)) rest)).
Proof.
  revert pre. induction rest as [|c rest IH]; intros pre Hc; [reflexivity|].
  assert (Hc' : corpus self = (pre ++ [c]) ++ rest)
    by (now rewrite <- app_assoc).
  specialize (IH (pre ++ [c]) Hc').
  rewrite length_app, Nat.add_1_r in IH.
  cbn [map above_threshold filter]. unfold clears at 1. cbn [snd].
  destruct (Qle_bool threshold (g c)); [|exact IH].
  rewrite Hc, nth_error_app2, Nat.sub_diag by lia. cbn [nth_error].
  now rewrite IH.
Qed.

(** On a reachable matcher with a vocabulary, [find_similar] is the sorted
    and truncated list of the entries that clear the threshold. *)
Lemma find_similar_reachable enc self query top_k threshold :
  reachable enc self ->
  find_similar cos_sim self query top_k threshold
  = take top_k (sort_desc snd (candidates cos_sim enc self query threshold)).
Proof.
  intros Hr. destruct (reachable_inv enc self Hr) as [Hm [[He Hc] | He]].
  - unfold find_similar, candidates. rewrite He, Hc. cbn.
    now rewrite take_nil.
  - unfold find_similar, candidates. rewrite He, Hm.
    destruct (corpus self) as [|c l] eqn:Hc.
    + cbn. now rewrite take_nil.
    + cbn [List.length Nat.eqb]. rewrite map_map, <- Hc.
      pose proof (above_threshold_total self threshold
                    (fun text => cos_sim (enc (lower (strip query))) (enc text))
                    [] (corpus self) eq_refl) as Ha.
      cbn [List.length] in Ha. rewrite Ha. reflexivity.
Qed.

Lemma not_ready_empty self query top_k threshold :
  is_corpus_ready self = false ->
  find_similar cos_sim self query top_k threshold = [].
Proof.
  unfold is_corpus_ready, find_similar. intros H.
  destruct (corpus_embeddings self); [|reflexivity].
  destruct (corpus self); [reflexivity|].
  destruct (model self); [discriminate H|reflexivity].
Qed.

Lemma filter_length_le {A : Type} (p q : A -> bool) l :
  (forall a, p a = true -> q a = true) ->
  List.length (filter p l) <= List.length (filter q l).
Proof.
  intros Hpq. induction l as [|a l IH]; simpl; [lia|].
  destruct (p a) eqn:Ep.
  - rewrite (Hpq a Ep). simpl. lia.
  - destruct (q a); simpl; lia.
Qed.

Lemma normalize_truthy s : truthy (normalize s) = truthy (strip s).
Proof. unfold normalize. apply lower_truthy. Qed.

Lemma normalize_filter skills :
  map normalize (filter (fun s => truthy (strip s)) skills)
  = filter truthy (map normalize skills).
Proof.
  induction skills as [|s l IH]; [reflexivity|]. cbn [map filter].
  rewrite normalize_truthy.
  destruct (truthy (strip s)); cbn [map]; now rewrite IH.
Qed.

Lemma normalize_fix s :
  lower (normalize s) = normalize s /\ strip (normalize s) = normalize s.
Proof.
  unfold normalize. split; [apply lower_idem|].
  now rewrite strip_lower, strip_idem.
Qed.

Lemma build_corpus_returns self skills :
  build_corpus self skills
  = Returned {| model := model self;
                corpus_embeddings :=
                  Some (encode_texts self
                          (fromkeys (filter truthy (map normalize skills))));
                corpus := fromkeys (filter truthy (map normalize skills)) |}.
Proof. unfold build_corpus. now rewrite normalize_filter. Qed.

Lemma blank_vocabulary skills :
  Forall (fun s => truthy (strip s) = false) skills ->
  filter truthy (map normalize skills) = [].
Proof.
  induction 1 as [|s l Hs _ IH]; [reflexivity|]. cbn [map filter].
  now rewrite normalize_truthy, Hs.
Qed.


(** C3. With [top_k] large enough to cut nothing, raising the threshold
    never lengthens the result of [find_similar]. *)
Theorem find_similar_threshold_monotone enc self query top_k t1 t2 :
  reachable enc self ->
  (t1 <= t2)%Q ->
  (Z.of_nat (List.length (corpus self)) <= top_k)%Z ->
  List.length (find_similar cos_sim self query top_k t2)
  <= List.length (find_similar cos_sim self query top_k t1).
Proof.
  intros Hr Ht Hk.
  assert (Hall : forall t,
             find_similar cos_sim self query top_k t
             = sort_desc snd (candidates cos_sim enc self query t)).
  { intros t. rewrite (find_similar_reachable enc) by exact Hr.
    apply take_length. rewrite sort_desc_length. unfold candidates.
    pose proof (filter_length (clears t)
                  (map (fun text => (text, score_of cos_sim enc query text))
                       (corpus self))) as Hf.
    rewrite length_map in Hf. lia. }
  rewrite !Hall, !sort_desc_length. unfold candidates.
  apply filter_length_le. intros p. unfold clears.
  rewrite !Qle_bool_iff. intros H. eapply Qle_trans; eassumption.
Qed.

(** C10. [find_similar] embeds the query trimmed and lower-cased: two
    queries that differ only in the case of letters and in white space
    before and after them get the same result, whatever the state of the
    matcher, [top_k] and the threshold. *)
Theorem find_similar_variant self query query' top_k threshold :
  variant query query' ->
  find_similar cos_sim self query top_k threshold
  = find_similar cos_sim self query' top_k threshold.
Proof.
  intros Hv. unfold find_similar.
  now rewrite (variant_normalized _ _ Hv).
Qed.

(** C9. [build_corpus] returns on every list of terms, and the vocabulary
    it stores holds only entries that are lower-cased, trimmed and not
    empty; no entry occurs twice; the entries are the non-empty normalized
    input terms, in the order in which these are first seen. *)
Theorem build_corpus_vocabulary self skills :
  exists self',
    build_corpus self skills = Returned self' /\
    Forall (fun e => lower e = e /\ strip e = e /\ e <> EmptyString)
           (corpus self') /\
    NoDup (corpus self') /\
    (forall e, In e (corpus self') <->
               In e (map normalize skills) /\ e <> EmptyString) /\
    StronglySorted (first_seen (map normalize skills)) (corpus self').
Proof.
  eexists. split; [apply build_corpus_returns|]. cbn [corpus].
  assert (Hin : forall e,
             In e (fromkeys (filter truthy (map normalize skills))) <->
             In e (map normalize skills) /\ e <> EmptyString).
  { intros e. rewrite fromkeys_In, filter_In.
    destruct e; cbn [truthy]; intuition congruence. }
  split; [|split; [apply fromkeys_NoDup|split; [exact Hin|]]].
  - apply Forall_forall. intros e He. apply Hin in He as [He Hne].
    apply in_map_iff in He as (s & <- & _).
    destruct (normalize_fix s) as [Hl Hs]. auto.
  - apply (StronglySorted_weaken
             (first_seen (filter truthy (map normalize skills))));
      [|apply fromkeys_order].
    intros a b Ha Hb. apply Hin in Ha as [_ Ha], Hb as [_ Hb].
    unfold first_seen. apply index_of_filter.
    + destruct a; [congruence|reflexivity].
    + destruct b; [congruence|reflexivity].
Qed.

(** C4, as the code has it. On a list whose terms are all empty or white
    space [build_corpus] returns: no error is raised or reported, the
    vocabulary is left empty and the index not ready. [is_corpus_ready]
    holds exactly when the matcher is the result of a build that stored a
    vocabulary that is not empty. *)
Theorem build_corpus_blank_and_readiness enc self skills :
  reachable enc self ->
  (Forall (fun s => truthy (strip s) = false) skills ->
   exists self',
     build_corpus self skills = Returned self' /\
     corpus self' = [] /\ is_corpus_ready self' = false) /\
  (is_corpus_ready self = true <->
   exists prev terms,
     reachable enc prev /\ build_corpus prev terms = Returned self /\
     corpus self <> []).
Proof.
  intros Hr. split.
  - intros Hb. eexists. split; [apply build_corpus_returns|].
    cbn [corpus]. rewrite (blank_vocabulary skills Hb). split; [reflexivity|].
    unfold is_corpus_ready. cbn. now rewrite andb_false_r.
  - split.
    + intros Hready. destruct Hr as [|prev terms self Hprev Hb].
      * discriminate Hready.
      * exists prev, terms. split; [exact Hprev|split; [exact Hb|]].
        intros E. unfold is_corpus_ready in Hready. rewrite E in Hready.
        cbn in Hready. now rewrite andb_false_r in Hready.
    + intros (prev & terms & Hprev & Hb & Hne).
      destruct (reachable_inv enc prev Hprev) as [Hm _].
      rewrite build_corpus_returns in Hb. injection Hb as <-.
      unfold is_corpus_ready. cbn [model corpus_embeddings corpus] in *.
      rewrite Hm. cbn.
      destruct (fromkeys (filter truthy (map normalize terms)));
        [congruence|reflexivity].
Qed.

End MatcherFacts.

(** ** Sums of scores *)

Section Sums.

Lemma sum_from (l : list Q) (a : Q) :
  (fold_left Qplus l a == a + PyList.sum l)%Q.
Proof.
  unfold PyList.sum. revert a. induction l as [|x l IH]; intros a; cbn.
  - ring.
  - rewrite (IH (a + x)%Q), (IH (0 + x)%Q). ring.
Qed.

Lemma sum_cons (x : Q) (l : list Q) :
  (PyList.sum (x :: l) == x + PyList.sum l)%Q.
Proof.
  unfold PyList.sum at 1. cbn. rewrite sum_from. ring.
Qed.

Lemma ratio_sum (l l' : list Q) (n : nat) :
  (PyList.sum l == PyList.sum l')%Q -> (ratio l n == ratio l' n)%Q.
Proof. intros H. unfold ratio. now rewrite H. Qed.

(** Rounding moves a number by at most half a unit of the last place. *)
Lemma round_half_even_close (x : Q) :
  (inject_Z (round_half_even x) - x <= 1 # 2)%Q /\
  (x - inject_Z (round_half_even x) <= 1 # 2)%Q.
Proof.
  unfold round_half_even.
  pose proof (Qfloor_le x) as Hlo. pose proof (Qlt_floor x) as Hhi.
  rewrite inject_Z_plus in Hhi. change (inject_Z 1) with 1%Q in Hhi.
  destruct (Qcompare_spec (x - inject_Z (Qfloor x)) (1 # 2)) as [E | E | E].
  - destruct (Z.even (Qfloor x)); rewrite ?inject_Z_plus;
      change (inject_Z 1) with 1%Q; split; lra.
  - split; lra.
  - rewrite inject_Z_plus. change (inject_Z 1) with 1%Q. split; lra.
Qed.

Lemma round4_close (x : Q) : (Qabs (round4 x - x) <= 1 # 20000)%Q.
Proof.
  destruct (round_half_even_close (x * 10000)) as [H1 H2].
  assert (E : (round4 x == inject_Z (round_half_even (x * 10000)) / 10000)%Q).
  { unfold round4. rewrite (Qmake_Qdiv _ 10000). reflexivity. }
  apply Qabs_Qle_condition. rewrite E. split.
  - apply Qmult_le_r with (z := 10000%Q); [reflexivity|]. field_simplify. lra.
  - apply Qmult_le_r with (z := 10000%Q); [reflexivity|]. field_simplify. lra.
Qed.

End Sums.

(** ** [SkillExtractionService] *)

Section ExtractionFacts.

Import Extraction.

Variable vec : Type.
Variable cos_sim : vec -> vec -> Q.

Implicit Types (self : SkillExtractionService vec).
Implicit Types (candidate_skills job_requirements : list string).

Lemma mem_lower text candidate_skills :
  mem (lower text) (map lower candidate_skills)
  = existsb (fun cs => String.eqb (lower text) (lower cs)) candidate_skills.
Proof.
  unfold mem. induction candidate_skills as [|c l IH]; [reflexivity|].
  cbn. now rewrite IH.
Qed.

Lemma requirement_step_eq self candidate_skills st r :
  requirement_step cos_sim self (map lower candidate_skills) st r
  = mkTally
      (t_matched st ++
         (if requirement_matched cos_sim self candidate_skills r
          then [r] else []))
      (t_missing st ++
         (if requirement_matched cos_sim self candidate_skills r
          then [] else [r]))
      (t_scores st ++ scored cos_sim self candidate_skills r)
      (t_log st ++ asked candidate_skills r).
Proof.
  unfold requirement_step, scored, asked, requirement_matched,
    requirement_score, semantic_score, exact.
  destruct (exact_match (map lower candidate_skills) (lower r)).
  - cbn. now rewrite !app_nil_r.
  - cbn [orb].
    destruct (find_similar cos_sim (skills_matcher self) r 1 (70 # 100))
      as [|[text s] rest].
    + cbn. now rewrite !app_nil_r.
    + rewrite mem_lower.
      destruct (existsb _ candidate_skills); cbn; now rewrite ?app_nil_r.
Qed.

Lemma requirement_loop self candidate_skills job_requirements st :
  fold_left (requirement_step cos_sim self (map lower candidate_skills))
            job_requirements st
  = mkTally
      (t_matched st ++
         filter (requirement_matched cos_sim self candidate_skills)
                job_requirements)
      (t_missing st ++
         filter (fun r => negb (requirement_matched cos_sim self
                                  candidate_skills r))
                job_requirements)
      (t_scores st ++ flat_map (scored cos_sim self candidate_skills) job_requirements)
      (t_log st ++ flat_map (asked candidate_skills) job_requirements).
Proof.
  revert st. induction job_requirements as [|r l IH]; intros st.
  - cbn. rewrite !app_nil_r. now destruct st.
  - cbn [fold_left]. rewrite IH, requirement_step_eq.
    cbn [t_matched t_missing t_scores t_log filter flat_map].
    rewrite <- !app_assoc.
    destruct (requirement_matched cos_sim self candidate_skills r);
      reflexivity.
Qed.

Lemma asked_filter candidate_skills job_requirements :
  flat_map (asked candidate_skills) job_requirements
  = map (fun r => mkQuery r 1 (70 # 100))
        (filter (fun r => negb (exact candidate_skills r)) job_requirements).
Proof.
  induction job_requirements as [|r l IH]; [reflexivity|].
  cbn [flat_map filter]. unfold asked at 1.
  destruct (exact candidate_skills r); cbn; now rewrite IH.
Qed.

Lemma scored_sum self candidate_skills job_requirements :
  (PyList.sum (flat_map (scored cos_sim self candidate_skills) job_requirements)
   == PyList.sum (map (requirement_score cos_sim self candidate_skills)
                      job_requirements))%Q.
Proof.
  induction job_requirements as [|r l IH]; [reflexivity|].
  cbn [flat_map map]. rewrite sum_cons, <- IH. unfold scored at 1.
  destruct (requirement_matched cos_sim self candidate_skills r) eqn:E.
  - cbn [app]. now rewrite sum_cons.
  - cbn [app]. unfold requirement_matched in E. unfold requirement_score.
    apply orb_false_iff in E as [-> E].
    destruct (semantic_score cos_sim self candidate_skills r);
      [discriminate E|]. ring.
Qed.

Lemma exact_contained candidate_skills r :
  exact candidate_skills r = true <-> contained candidate_skills r.
Proof.
  unfold exact, exact_match, contained. rewrite existsb_exists. split.
  - intros (c & Hc & H). apply in_map_iff in Hc as (cs & <- & Hcs).
    exists cs. split; [exact Hcs|].
    apply orb_true_iff in H. rewrite !contains_spec in H. exact H.
  - intros (cs & Hcs & H). exists (lower cs). split; [now apply in_map|].
    apply orb_true_iff. rewrite !contains_spec. exact H.
Qed.

Lemma level_of_cut_points (p : Z) :
  (level_of p = EXCELENTE <-> (90 <= p)%Z) /\
  (level_of p = BOM <-> (75 <= p < 90)%Z) /\
  (level_of p = MODERADO <-> (60 <= p < 75)%Z) /\
  (level_of p = BAIXO <-> (40 <= p < 60)%Z) /\
  (level_of p = INSUFICIENTE <-> (p < 40)%Z).
Proof.
  unfold level_of.
  destruct (Z.leb_spec 90 p); [repeat split; intros; try discriminate; lia|].
  destruct (Z.leb_spec 75 p); [repeat split; intros; try discriminate; lia|].
  destruct (Z.leb_spec 60 p); [repeat split; intros; try discriminate; lia|].
  destruct (Z.leb_spec 40 p); repeat split; intros; try discriminate; lia.
Qed.


(** C6. With requirements and no candidate skill,
    [calculate_profile_match] returns the answer with score 0 in which
    every requirement is missing and none is matched, and makes no call to
    the index; without requirements it fails: it returns the dictionary
    that holds only an error, whatever the candidate skills. *)
Theorem calculate_profile_match_boundaries self candidate_skills
    job_requirements weight_match weight_similarity :
  job_requirements <> [] ->
  calculate_profile_match cos_sim self [] job_requirements
    weight_match weight_similarity
  = (Returned (NoSkillsDict 0 0 job_requirements [] job_requirements), []) /\
  calculate_profile_match cos_sim self candidate_skills []
    weight_match weight_similarity
  = (Returned (ErrorDict "Nenhum requisito fornecido"), []).
Proof.
  intros Hr. split; [|reflexivity].
  destruct job_requirements; [congruence|reflexivity].
Qed.

(** C7. The two weights have no influence on the answer of
    [calculate_profile_match]: the score, the percentage, the level, the
    matched and the missing requirements, and the calls made, are the same
    under any two pairs of weights. *)
Theorem calculate_profile_match_weights self candidate_skills job_requirements
    weight_match weight_similarity weight_match' weight_similarity' :
  calculate_profile_match cos_sim self candidate_skills job_requirements
    weight_match weight_similarity
  = calculate_profile_match cos_sim self candidate_skills job_requirements
      weight_match' weight_similarity'.
Proof. reflexivity. Qed.

(** C5, as the code has it. When the index is not ready,
    [match_skills_with_bert] returns the empty list at once, for every
    candidate list: no candidate is processed and the index is not
    queried; the call returns, no error is raised. *)
Theorem match_skills_with_bert_not_ready self skills threshold top_k :
  is_corpus_ready (skills_matcher self) = false ->
  match_skills_with_bert cos_sim self skills threshold top_k
  = (Returned [], []).
Proof.
  intros H. unfold match_skills_with_bert. rewrite H.
  now destruct skills.
Qed.

End ExtractionFacts.

(** ** [OccupationInferenceService] *)

Section InferenceFacts.

Import Inference.

Variable vec : Type.
Variable cos_sim : vec -> vec -> Q.

Implicit Types (self : OccupationInferenceService vec).

Lemma dict_append_keys (f : string -> list Q) ks k v :
  NoDup ks -> (~ In k ks -> f k = []) ->
  dict_append (map (fun t => (t, f t)) ks) k v
  = map (fun t => (t, if String.eqb k t then f t ++ [v] else f t))
        (fromkeys_step ks k).
Proof.
  unfold fromkeys_step. induction ks as [|a ks IH]; intros Hnd Hk.
  - cbn. rewrite String.eqb_refl, Hk by tauto. reflexivity.
  - inversion Hnd as [|? ? Ha Hks]; subst.
    cbn [map dict_append mem existsb]. fold (mem k ks).
    destruct (String.eqb k a) eqn:E.
    + apply String.eqb_eq in E. subst a. cbn [orb map].
      rewrite String.eqb_refl. f_equal.
      apply map_ext_in. intros t Ht.
      destruct (String.eqb k t) eqn:Et; [|reflexivity].
      apply String.eqb_eq in Et. congruence.
    + rewrite String.eqb_sym, E. cbn [orb]. rewrite IH.
      * destruct (mem k ks); cbn [map app]; now rewrite E.
      * exact Hks.
      * intros Hn. apply Hk. intros [H | H]; [|tauto].
        subst. now rewrite String.eqb_refl in E.
Qed.

Lemma scores_for_snoc t l (h : string * Q) :
  scores_for t (l ++ [h])
  = scores_for t l ++ (if String.eqb (fst h) t then [snd h] else []).
Proof.
  unfold scores_for. rewrite filter_app, map_app. cbn [filter].
  now destruct (String.eqb (fst h) t).
Qed.

Lemma scores_for_absent t l : ~ In t (map fst l) -> scores_for t l = [].
Proof.
  unfold scores_for. induction l as [|h l IH]; [reflexivity|].
  cbn [map filter In]. intros H.
  destruct (String.eqb (fst h) t) eqn:E.
  - apply String.eqb_eq in E. tauto.
  - apply IH. tauto.
Qed.

Lemma scores_for_present t l : In t (map fst l) -> scores_for t l <> [].
Proof.
  unfold scores_for. induction l as [|h l IH]; [intros []|].
  cbn [map filter In]. intros [H | H].
  - rewrite H, String.eqb_refl. discriminate.
  - destruct (String.eqb (fst h) t); [discriminate|now apply IH].
Qed.

(** The inner loop builds the grouped dictionary. *)
Lemma accumulate_grouped (l : list (string * Q)) :
  fold_left (fun d hit => dict_append d (fst hit) (snd hit)) l [] = grouped l.
Proof.
  induction l as [|h l IH] using rev_ind; [reflexivity|].
  rewrite fold_left_app. cbn [fold_left]. rewrite IH. unfold grouped.
  rewrite (dict_append_keys (fun t => scores_for t l)).
  - rewrite map_app. cbn [map]. rewrite fromkeys_snoc.
    apply map_ext. intros t. rewrite scores_for_snoc.
    destruct (String.eqb (fst h) t); [reflexivity|now rewrite app_nil_r].
  - apply fromkeys_NoDup.
  - intros H. apply scores_for_absent. now rewrite fromkeys_In in H.
Qed.

(** The two nested loops are one loop over all the hits. *)
Lemma keyword_loop self threshold keywords d :
  fold_left (keyword_step cos_sim self threshold) keywords d
  = fold_left (fun d hit => dict_append d (fst hit) (snd hit))
              (hits cos_sim self keywords threshold) d.
Proof.
  unfold hits. revert d. induction keywords as [|k ks IH]; intros d;
    [reflexivity|].
  cbn [fold_left filter]. rewrite IH. unfold keyword_step at 1, queried at 2.
  destruct (String.length (strip k) <? 3); cbn [negb]; [reflexivity|].
  cbn [flat_map]. now rewrite fold_left_app.
Qed.

Lemma tier_cut_points (m : Q) :
  (tier m = high <-> (80 # 100 < m)%Q) /\
  (tier m = medium <-> (70 # 100 < m)%Q /\ (m <= 80 # 100)%Q) /\
  (tier m = low <-> (m <= 70 # 100)%Q).
Proof.
  unfold tier, Qgt_bool.
  destruct (Qle_bool m (80 # 100)) eqn:E8; cbn [negb].
  - apply Qle_bool_iff in E8.
    destruct (Qle_bool m (70 # 100)) eqn:E7; cbn [negb].
    + apply Qle_bool_iff in E7.
      repeat split; try discriminate; try tauto.
      * intros H. exfalso. apply (Qlt_not_le _ _ H E8).
      * intros [H _]. exfalso. apply (Qlt_not_le _ _ H E7).
    + assert (H7 : (70 # 100 < m)%Q).
      { apply Qnot_le_lt. intros H. apply Qle_bool_iff in H. congruence. }
      repeat split; try discriminate; try tauto.
      * intros H. exfalso. apply (Qlt_not_le _ _ H E8).
      * intros H. exfalso. apply (Qlt_not_le _ _ H7 H).
  - assert (H8 : (80 # 100 < m)%Q).
    { apply Qnot_le_lt. intros H. apply Qle_bool_iff in H. congruence. }
    repeat split; try discriminate; try tauto.
    + intros [_ H]. exfalso. apply (Qlt_not_le _ _ H8 H).
    + intros H. exfalso. apply (Qlt_not_le _ _ H8).
      eapply Qle_trans; [exact H|]. discriminate.
Qed.


End InferenceFacts.

(** ** Concrete runs *)

Section Runs.

Import Extraction Inference.

Local Open Scope string_scope.

Lemma demo_reachable : reachable Demo.enc Demo.matcher.
Proof. eapply reach_build; [apply reach_new|reflexivity]. Defined.


(** C3 on the built index, thresholds 0.5 and 0.75, no cut. *)
Lemma find_similar_threshold_monotone_witness :
  reachable Demo.enc Demo.matcher /\ (1 # 2 <= 3 # 4)%Q /\
  (Z.of_nat (List.length (corpus Demo.matcher)) <= 10)%Z /\
  List.length (find_similar Demo.sim Demo.matcher "python developer" 10 (3 # 4))
  <= List.length (find_similar Demo.sim Demo.matcher "python developer" 10 (1 # 2)).
Proof.
  assert (Ht : (1 # 2 <= 3 # 4)%Q) by (unfold Qle; cbn; lia).
  assert (Hk : (Z.of_nat (List.length (corpus Demo.matcher)) <= 10)%Z)
    by (vm_compute; discriminate).
  split; [exact demo_reachable|split; [exact Ht|split; [exact Hk|]]].
  exact (find_similar_threshold_monotone _ Demo.sim Demo.enc Demo.matcher
           "python developer" 10 (1 # 2) (3 # 4) demo_reachable Ht Hk).
Defined.

Lemma demo_variant : variant "  Python Developer " "python developer".
Proof.
  exists "  ", " ", "", "", "Python Developer", "python developer".
  repeat split.
  repeat (constructor;
          [first [left; reflexivity | right; left; reflexivity]|]).
  constructor.
Defined.

(** C10 on a query in another case and with white space around it. *)
Lemma find_similar_variant_witness :
  variant "  Python Developer " "python developer" /\
  find_similar Demo.sim Demo.matcher "  Python Developer " 5 (1 # 2)
  = find_similar Demo.sim Demo.matcher "python developer" 5 (1 # 2).
Proof.
  split; [exact demo_variant|].
  exact (find_similar_variant _ Demo.sim Demo.matcher _ _ 5 (1 # 2)
           demo_variant).
Defined.

(** C4: the claim fails. [build_corpus] on terms that are all blank
    returns, with an empty vocabulary; it raises no error, in particular
    no [CorpusUnavailableError]. *)
Lemma build_corpus_blank_returns :
  build_corpus (new_matcher Demo.enc) ["   "; ""]
  = Returned {| model := Some Demo.enc;
                corpus_embeddings := Some [];
                corpus := [] |} /\
  build_corpus (new_matcher Demo.enc) ["   "; ""]
  <> Raised (Error "CorpusUnavailableError").
Proof. split; [reflexivity|discriminate]. Qed.

(** C4 as amended, on the built index and two blank terms. *)
Lemma build_corpus_blank_and_readiness_witness :
  reachable Demo.enc Demo.matcher /\
  Forall (fun s => truthy (strip s) = false) ["   "; ""] /\
  (exists self',
      build_corpus Demo.matcher ["   "; ""] = Returned self' /\
      corpus self' = [] /\ is_corpus_ready self' = false) /\
  (is_corpus_ready Demo.matcher = true <->
   exists prev terms,
     reachable Demo.enc prev /\
     build_corpus prev terms = Returned Demo.matcher /\
     corpus Demo.matcher <> []).
Proof.
  assert (Hb : Forall (fun s => truthy (strip s) = false) ["   "; ""])
    by (repeat constructor).
  split; [exact demo_reachable|split; [exact Hb|]].
  destruct (build_corpus_blank_and_readiness _ Demo.enc Demo.matcher
              ["   "; ""] demo_reachable) as [H1 H2].
  split; [exact (H1 Hb)|exact H2].
Defined.

(** C5: the claim fails. On an index that is not ready and one candidate,
    [match_skills_with_bert] returns the empty list, the value a call
    without candidates returns on a ready index; no error is raised. *)
Lemma match_skills_with_bert_returns_empty :
  is_corpus_ready (Extraction.skills_matcher Demo.extraction_unbuilt) = false /\
  match_skills_with_bert Demo.sim Demo.extraction_unbuilt ["python"]
    (75 # 100) 1
  = (Returned [], []) /\
  match_skills_with_bert Demo.sim Demo.extraction [] (75 # 100) 1
  = (Returned [], []) /\
  fst (match_skills_with_bert Demo.sim Demo.extraction_unbuilt ["python"]
         (75 # 100) 1)
  <> Raised (Error "IndexNotReadyError").
Proof. repeat split; discriminate. Qed.

(** C5 as amended, on the index that is not built. *)
Lemma match_skills_with_bert_not_ready_witness :
  is_corpus_ready (Extraction.skills_matcher Demo.extraction_unbuilt) = false /\
  match_skills_with_bert Demo.sim Demo.extraction_unbuilt
    ["python"; "docker"] (75 # 100) 1
  = (Returned [], []).
Proof.
  split; [reflexivity|].
  exact (match_skills_with_bert_not_ready _ Demo.sim Demo.extraction_unbuilt
           ["python"; "docker"] (75 # 100) 1 eq_refl).
Defined.



(** C6 on one requirement. *)
Lemma calculate_profile_match_boundaries_witness :
  ["aws"] <> [] /\
  calculate_profile_match Demo.sim Demo.extraction [] ["aws"] (7 # 10) (3 # 10)
  = (Returned (NoSkillsDict 0 0 ["aws"] [] ["aws"]), []) /\
  calculate_profile_match Demo.sim Demo.extraction ["python"] []
    (7 # 10) (3 # 10)
  = (Returned (ErrorDict "Nenhum requisito fornecido"), []).
Proof.
  assert (Hr : ["aws"] <> []) by discriminate.
  split; [exact Hr|].
  exact (calculate_profile_match_boundaries _ Demo.sim Demo.extraction
           ["python"] ["aws"] (7 # 10) (3 # 10) Hr).
Defined.

(** The scenario of the specification: three requirements of five are
    contained in a candidate skill, the index has nothing for the other
    two; the score is 3/5, the percentage 60, the level moderate. *)
Example profile_match_scenario :
  exists report,
    calculate_profile_match Demo.sim Demo.extraction
      ["Python"; "Django"; "PostgreSQL"; "Docker"]
      ["Python"; "Django"; "AWS"; "Docker"; "Kubernetes"] (7 # 10) (3 # 10)
    = (Returned (MatchDict report),
       [mkQuery "AWS" 1 (70 # 100); mkQuery "Kubernetes" 1 (70 # 100)]) /\
    (match_score report == 3 # 5)%Q /\
    match_percentage report = 60%Z /\
    level report = MODERADO /\
    matched_skills report = ["Python"; "Django"; "Docker"] /\
    missing_skills report = ["AWS"; "Kubernetes"].
Proof. eexists. split; [vm_compute; reflexivity|]. now vm_compute. Qed.


End Runs.

(** * Further properties *)

(** ** Lists and dictionaries *)

Section MoreListFacts.

Import PyDict.

Lemma take_firstn {A : Type} (k : Z) (l : list A) :
  exists n, take k l = firstn n l.
Proof. unfold take. destruct (0 <=? k)%Z; eauto. Qed.

Lemma take_zero {A : Type} (l : list A) : take 0 l = [].
Proof. reflexivity. Qed.

Lemma take_negative {A : Type} (k : Z) (l : list A) :
  (k < 0)%Z -> take k l = firstn (List.length l - Z.to_nat (- k)) l.
Proof.
  intros H. unfold take. destruct (Z.leb_spec 0 k); [lia|reflexivity].
Qed.

Lemma take_take {A : Type} (k k' : Z) (l : list A) :
  (0 <= k <= k')%Z -> take k l = firstn (Z.to_nat k) (take k' l).
Proof.
  intros H. rewrite !take_pos by lia. rewrite firstn_firstn.
  f_equal. lia.
Qed.

Lemma take_length_le {A : Type} (k : Z) (l : list A) :
  (0 <= k)%Z -> List.length (take k l) <= Z.to_nat k.
Proof. intros H. rewrite take_pos by exact H. apply firstn_le_length. Qed.

Lemma firstn_incl {A : Type} (n : nat) (l : list A) (a : A) :
  In a (firstn n l) -> In a l.
Proof.
  intros H. rewrite <- (firstn_skipn n l). apply in_or_app. now left.
Qed.

Lemma take_incl {A : Type} (k : Z) (l : list A) (a : A) :
  In a (take k l) -> In a l.
Proof.
  destruct (take_firstn k l) as [n ->]. apply firstn_incl.
Qed.

Lemma firstn_NoDup {A : Type} (n : nat) (l : list A) :
  NoDup l -> NoDup (firstn n l).
Proof.
  intros H. rewrite <- (firstn_skipn n l) in H.
  now apply NoDup_app_remove_r in H.
Qed.

Lemma firstn_sorted {A : Type} (R : A -> A -> Prop) (n : nat) (l : list A) :
  StronglySorted R l -> StronglySorted R (firstn n l).
Proof.
  intros H. revert n. induction H as [|a l Hs IH Ha]; intros n.
  - rewrite firstn_nil. constructor.
  - destruct n as [|n]; [constructor|]. cbn [firstn].
    constructor; [apply IH|].
    rewrite Forall_forall in *. intros b Hb. apply Ha.
    now apply firstn_incl in Hb.
Qed.

Lemma fromkeys_fixed (l : list string) : NoDup l -> fromkeys l = l.
Proof.
  induction l as [|x l IH] using rev_ind; [reflexivity|].
  intros H. rewrite fromkeys_snoc.
  assert (Hl : NoDup l /\ ~ In x l).
  { apply (Permutation_NoDup (Permutation_sym (Permutation_cons_append l x)))
      in H.
    inversion H; subst. auto. }
  destruct Hl as [Hl Hx]. rewrite (IH Hl). unfold fromkeys_step.
  apply mem_not_In in Hx. now rewrite Hx.
Qed.

(** Writing, key by key, the value [f] gives to the key. *)
Lemma set_keys {V : Type} (f : string -> V) ks k :
  set (map (fun q => (q, f q)) ks) k (f k)
  = map (fun q => (q, f q)) (fromkeys_step ks k).
Proof.
  unfold fromkeys_step. induction ks as [|a ks IH].
  - reflexivity.
  - cbn [map set mem existsb]. fold (mem k ks).
    destruct (String.eqb k a) eqn:E.
    + apply String.eqb_eq in E. subst a.
      now rewrite String.eqb_refl.
    + rewrite String.eqb_sym, E. cbn [orb]. rewrite IH.
      now destruct (mem k ks).
Qed.

Lemma fold_set_keys {V : Type} (f : string -> V) (l : list string) :
  fold_left (fun d q => set d q (f q)) l []
  = map (fun q => (q, f q)) (fromkeys l).
Proof.
  induction l as [|x l IH] using rev_ind; [reflexivity|].
  rewrite fold_left_app. cbn [fold_left]. rewrite IH, fromkeys_snoc.
  apply set_keys.
Qed.

Lemma get_map_keys {V : Type} (f : string -> V) ks k :
  get (map (fun q => (q, f q)) ks) k = if mem k ks then Some (f k) else None.
Proof.
  unfold get. induction ks as [|a ks IH]; [reflexivity|].
  cbn [map find fst mem existsb]. fold (mem k ks).
  rewrite (String.eqb_sym k a).
  destruct (String.eqb a k) eqn:E.
  - apply String.eqb_eq in E. now subst.
  - exact IH.
Qed.

Lemma mem_fromkeys k l : mem k (fromkeys l) = mem k l.
Proof.
  destruct (mem k l) eqn:E.
  - apply mem_In. apply fromkeys_In. now apply mem_In.
  - apply mem_not_In. rewrite fromkeys_In. now apply mem_not_In.
Qed.

End MoreListFacts.

(** ** Sorting and filtering *)

Section MoreSortingFacts.

Variable A : Type.
Variable key : A -> Q.

Lemma insert_desc_first x m :
  Forall (fun z => (key z <= key x)%Q) m -> insert_desc key x m = x :: m.
Proof.
  destruct m as [|y m]; [reflexivity|]. intros H. inversion H; subst.
  cbn [insert_desc].
  assert (E : Qle_bool (key y) (key x) = true) by now apply Qle_bool_iff.
  now rewrite E.
Qed.

Lemma filter_insert_desc (p : A -> bool) x l :
  StronglySorted (desc key) l ->
  filter p (insert_desc key x l)
  = if p x then insert_desc key x (filter p l) else filter p l.
Proof.
  induction 1 as [|y l Hs IH Hy].
  - cbn. now destruct (p x).
  - cbn [insert_desc]. destruct (Qle_bool (key y) (key x)) eqn:E.
    + cbn [filter]. destruct (p x); [|reflexivity].
      symmetry. apply insert_desc_first.
      apply Qle_bool_iff in E. apply Forall_forall. intros z Hz.
      assert (Hz' : In z (y :: l)).
      { change (In z (filter p (y :: l))) in Hz.
        now apply filter_In in Hz as [Hz _]. }
      destruct Hz' as [<- | Hz']; [exact E|].
      rewrite Forall_forall in Hy. unfold desc in Hy.
      eapply Qle_trans; [apply (Hy z Hz')|exact E].
    + cbn [filter]. rewrite IH.
      destruct (p y), (p x); try reflexivity.
      cbn [insert_desc]. now rewrite E.
Qed.

(** Filtering a sorted list is sorting the filtered list. *)
Lemma filter_sort_desc (p : A -> bool) l :
  filter p (sort_desc key l) = sort_desc key (filter p l).
Proof.
  induction l as [|x l IH]; [reflexivity|].
  cbn [sort_desc fold_right]. fold (sort_desc key l).
  rewrite filter_insert_desc by apply sort_desc_sorted.
  rewrite IH. cbn [filter]. now destruct (p x).
Qed.

(** A test that holds of every item above one of which it holds cuts a
    descending list at one point: filtering then commutes with taking the
    first items. *)
Lemma filter_firstn_desc (p : A -> bool) n l :
  (forall a b, (key a <= key b)%Q -> p a = true -> p b = true) ->
  StronglySorted (desc key) l ->
  filter p (firstn n l) = firstn n (filter p l).
Proof.
  intros Hp Hs. revert n. induction Hs as [|a l Hs IH Ha]; intros n.
  - now rewrite !firstn_nil.
  - destruct n as [|n]; [reflexivity|]. cbn [firstn filter].
    destruct (p a) eqn:Ea.
    + cbn [firstn]. now rewrite IH.
    + assert (Hnone : forall m, (forall z, In z m -> In z l) ->
                                filter p m = []).
      { induction m as [|z m IHm]; [reflexivity|]. intros Hin. cbn [filter].
        destruct (p z) eqn:Ez.
        - rewrite Forall_forall in Ha.
          rewrite (Hp z a (Ha z (Hin z (or_introl eq_refl))) Ez) in Ea.
          discriminate.
        - apply IHm. intros w Hw. apply Hin. now right. }
      rewrite (Hnone l (fun z H => H)).
      rewrite (Hnone (firstn n l) (fun z H => firstn_incl n l z H)).
      rewrite ?firstn_nil. reflexivity.
Qed.

(** The first item of a sorted list has the greatest key. *)
Lemma sort_desc_head x rest l :
  sort_desc key l = x :: rest -> Forall (fun z => (key z <= key x)%Q) l.
Proof.
  intros E. pose proof (sort_desc_sorted A key l) as Hs.
  pose proof (sort_desc_perm A key l) as Hp. rewrite E in Hs, Hp.
  inversion Hs as [|? ? _ Hx]; subst.
  apply Forall_forall. intros z Hz.
  apply (Permutation_in _ Hp) in Hz. destruct Hz as [<- | Hz].
  - apply Qle_refl.
  - rewrite Forall_forall in Hx. now apply Hx.
Qed.

End MoreSortingFacts.

(** ** [SkillsMatcher], further properties *)

Section MatcherMoreFacts.

Variable vec : Type.
Variable cos_sim : vec -> vec -> Q.

Implicit Types (enc : string -> vec) (self : SkillsMatcher vec).
Implicit Types (query : string) (top_k : Z) (threshold : Q).

Lemma find_similar_take self query top_k threshold :
  find_similar cos_sim self query top_k threshold
  = take top_k (full_ranking cos_sim self query threshold).
Proof.
  unfold find_similar, full_ranking.
  destruct (corpus_embeddings self); [|now rewrite take_nil].
  destruct (List.length (corpus self) =? 0); [now rewrite take_nil|].
  destruct (model self); [|now rewrite take_nil].
  destruct (above_threshold self threshold 0 _); [reflexivity|].
  now rewrite take_nil.
Qed.

Lemma full_ranking_reachable enc self query threshold :
  reachable enc self ->
  full_ranking cos_sim self query threshold
  = sort_desc snd (candidates cos_sim enc self query threshold).
Proof.
  intros Hr.
  pose proof (find_similar_reachable vec cos_sim enc self query
                (Z.of_nat (List.length
                             (candidates cos_sim enc self query threshold)))
                threshold Hr) as H.
  rewrite find_similar_take in H.
  assert (Hlen : List.length (full_ranking cos_sim self query threshold)
                 <= List.length (candidates cos_sim enc self query threshold)).
  { unfold full_ranking, candidates.
    destruct (reachable_inv vec enc self Hr) as [Hm [[He Hc] | He]].
    - rewrite He. cbn. lia.
    - rewrite He, Hm. destruct (corpus self) as [|c l] eqn:Hc; [cbn; lia|].
      cbn [List.length Nat.eqb]. rewrite map_map, <- Hc.
      pose proof (above_threshold_total vec self threshold
                    (fun text => cos_sim (enc (lower (strip query))) (enc text))
                    [] (corpus self) eq_refl) as Ha.
      cbn [List.length] in Ha. rewrite Ha, sort_desc_length.
      unfold score_of. lia. }
  rewrite !take_length in H; [exact H| |lia].
  rewrite sort_desc_length. lia.
Qed.

Lemma above_threshold_clears self threshold idx sims r :
  above_threshold self threshold idx sims = Some r ->
  Forall (fun p => clears threshold p = true) r.
Proof.
  revert idx r. induction sims as [|s sims IH]; intros idx r H.
  - injection H as <-. constructor.
  - cbn [above_threshold] in H.
    destruct (Qle_bool threshold s) eqn:E; [|now apply (IH (S idx))].
    destruct (nth_error (corpus self) idx); [|discriminate].
    destruct (above_threshold self threshold (S idx) sims) eqn:Er;
      [|discriminate].
    injection H as <-. constructor; [exact E|now apply (IH (S idx))].
Qed.

(** In every state of the matcher, the scores returned clear the
    threshold. *)
Lemma full_ranking_clears self query threshold :
  Forall (fun p => clears threshold p = true)
         (full_ranking cos_sim self query threshold).
Proof.
  unfold full_ranking.
  destruct (corpus_embeddings self); [|constructor].
  destruct (List.length (corpus self) =? 0); [constructor|].
  destruct (model self); [|constructor].
  destruct (above_threshold self threshold 0 _) as [r|] eqn:E; [|constructor].
  apply above_threshold_clears in E. rewrite Forall_forall in *.
  intros p Hp. apply E.
  now apply (Permutation_in _ (Permutation_sym (sort_desc_perm _ snd r))).
Qed.

Lemma find_similar_clears self query top_k threshold :
  Forall (fun p => (threshold <= snd p)%Q)
         (find_similar cos_sim self query top_k threshold).
Proof.
  rewrite find_similar_take. apply Forall_forall. intros p Hp.
  apply take_incl in Hp.
  pose proof (full_ranking_clears self query threshold) as H.
  rewrite Forall_forall in H. apply Qle_bool_iff. now apply H.
Qed.

Lemma full_ranking_sorted self query threshold :
  StronglySorted (desc snd) (full_ranking cos_sim self query threshold).
Proof.
  unfold full_ranking.
  destruct (corpus_embeddings self); [|constructor].
  destruct (List.length (corpus self) =? 0); [constructor|].
  destruct (model self); [|constructor].
  destruct (above_threshold self threshold 0 _); [|constructor].
  apply sort_desc_sorted.
Qed.

Lemma normalized_fixed text : normalized text -> normalize text = text.
Proof. intros (Hl & Hs & _). unfold normalize. now rewrite Hs, Hl. Qed.

Lemma reachable_corpus enc self :
  reachable enc self ->
  NoDup (corpus self) /\ Forall normalized (corpus self).
Proof.
  intros Hr. destruct Hr as [|prev skills self Hprev Hb].
  - split; constructor.
  - rewrite build_corpus_returns in Hb. injection Hb as <-. cbn [corpus].
    split; [apply fromkeys_NoDup|].
    apply Forall_forall. intros e He.
    rewrite fromkeys_In, filter_In in He. destruct He as [He Ht].
    apply in_map_iff in He as (s & <- & _).
    destruct (normalize_fix s) as [Hl Hs]. repeat split; try assumption.
    intros E. now rewrite E in Ht.
Qed.

Lemma filter_filter_implied {B : Type} (p q : B -> bool) l :
  (forall b, p b = true -> q b = true) ->
  filter p (filter q l) = filter p l.
Proof.
  intros H. induction l as [|b l IH]; [reflexivity|]. cbn [filter].
  destruct (q b) eqn:Eq; cbn [filter]; [now rewrite IH|].
  destruct (p b) eqn:Ep; [|exact IH].
  rewrite (H b Ep) in Eq. discriminate.
Qed.

Lemma clears_upward threshold (a b : string * Q) :
  (snd a <= snd b)%Q -> clears threshold a = true -> clears threshold b = true.
Proof.
  unfold clears. rewrite !Qle_bool_iff. intros H1 H2.
  eapply Qle_trans; eassumption.
Qed.

(** X1. [find_similar], results for fewer items. Asking for [top_k] items
    gives the first [top_k] of what a larger [top_k'] gives, in every
    state of the matcher. *)
Theorem find_similar_prefix self query top_k top_k' threshold :
  (0 <= top_k <= top_k')%Z ->
  find_similar cos_sim self query top_k threshold
  = firstn (Z.to_nat top_k) (find_similar cos_sim self query top_k' threshold).
Proof.
  intros H. rewrite !find_similar_take. now apply take_take.
Qed.

Lemma find_similar_filter enc self query top_k t1 t2 :
  reachable enc self ->
  (t1 <= t2)%Q ->
  (0 <= top_k)%Z ->
  filter (clears t2) (find_similar cos_sim self query top_k t1)
  = find_similar cos_sim self query top_k t2.
Proof.
  intros Hr Ht Hk. rewrite !find_similar_take, !take_pos by exact Hk.
  rewrite filter_firstn_desc with (key := snd).
  - f_equal. rewrite !(full_ranking_reachable enc) by exact Hr.
    rewrite filter_sort_desc. f_equal. unfold candidates.
    apply filter_filter_implied. intros p. unfold clears.
    rewrite !Qle_bool_iff. intros H. eapply Qle_trans; eassumption.
  - intros a b. apply clears_upward.
  - apply full_ranking_sorted.
Qed.


Lemma find_similar_texts enc self query top_k threshold :
  reachable enc self ->
  NoDup (map fst (find_similar cos_sim self query top_k threshold)) /\
  Forall (fun p => In (fst p) (corpus self) /\ normalized (fst p))
         (find_similar cos_sim self query top_k threshold).
Proof.
  intros Hr. destruct (reachable_corpus enc self Hr) as [Hnd Hnorm].
  rewrite find_similar_take, (full_ranking_reachable enc) by exact Hr.
  destruct (take_firstn top_k
              (sort_desc snd (candidates cos_sim enc self query threshold)))
    as [n ->].
  assert (Hall : NoDup (map fst (sort_desc snd
                   (candidates cos_sim enc self query threshold)))).
  { apply (Permutation_NoDup
             (Permutation_map fst (sort_desc_perm _ snd _))).
    unfold candidates.
    assert (E : forall l,
               map fst (filter (clears threshold)
                          (map (fun text => (text, score_of cos_sim enc query text)) l))
               = filter (fun text =>
                           clears threshold (text, score_of cos_sim enc query text)) l).
    { induction l as [|c l IH]; [reflexivity|]. cbn [map filter].
      destruct (clears threshold (c, score_of cos_sim enc query c));
        cbn [map fst]; now rewrite IH. }
    rewrite E. now apply NoDup_filter. }
  split.
  - rewrite <- firstn_map. now apply firstn_NoDup.
  - apply Forall_forall. intros p Hp. apply firstn_incl in Hp.
    apply (Permutation_in _ (Permutation_sym (sort_desc_perm _ snd _))) in Hp.
    unfold candidates in Hp. apply filter_In in Hp as [Hp _].
    apply in_map_iff in Hp as (c & <- & Hc). cbn [fst].
    rewrite Forall_forall in Hnorm. auto.
Qed.

(** X3. [find_similar], the texts returned. On a built index no text is
    returned twice, and every text returned is an entry of the corpus:
    lower-cased, trimmed and not empty. *)
Theorem find_similar_distinct_normalized enc self query top_k threshold :
  reachable enc self ->
  NoDup (map fst (find_similar cos_sim self query top_k threshold)) /\
  Forall (fun p => In (fst p) (corpus self) /\ normalized (fst p))
         (find_similar cos_sim self query top_k threshold).
Proof. apply find_similar_texts. Qed.

Lemma find_similar_uncut enc self query threshold :
  reachable enc self ->
  find_similar cos_sim self query (Z.of_nat (List.length (corpus self)))
    threshold
  = full_ranking cos_sim self query threshold.
Proof.
  intros Hr. rewrite find_similar_take. apply take_length.
  rewrite (full_ranking_reachable enc) by exact Hr.
  rewrite sort_desc_length. unfold candidates.
  pose proof (filter_length (clears threshold)
                (map (fun text => (text, score_of cos_sim enc query text))
                     (corpus self))) as Hf.
  rewrite length_map in Hf. lia.
Qed.

(** X4. [find_similar], [top_k] not positive. On a built index, let [full] be
    the result when [top_k] is the size of the corpus, which cuts nothing.
    With [top_k = 0] the result is empty; with a negative [top_k] nothing
    fails: the result is [full] without its last [- top_k] items. *)
Theorem find_similar_nonpositive_top_k enc self query top_k threshold :
  reachable enc self ->
  (top_k <= 0)%Z ->
  let full :=
    find_similar cos_sim self query (Z.of_nat (List.length (corpus self)))
      threshold in
  find_similar cos_sim self query top_k threshold
  = if (top_k =? 0)%Z then []
    else firstn (List.length full - Z.to_nat (- top_k)) full.
Proof.
  intros Hr Hk full. unfold full.
  rewrite (find_similar_uncut enc) by exact Hr.
  rewrite find_similar_take.
  destruct (Z.eqb_spec top_k 0) as [-> | Hne].
  - apply take_zero.
  - apply take_negative. lia.
Qed.

(** X5. [build_corpus], building again. Building from the vocabulary that a
    build stored leaves the matcher as it is: the stored entries are
    already normalized and distinct. *)
Theorem build_corpus_rebuild self skills :
  exists self',
    build_corpus self skills = Returned self' /\
    build_corpus self' (corpus self') = Returned self'.
Proof.
  eexists. split; [apply build_corpus_returns|].
  rewrite build_corpus_returns. cbn [model corpus].
  set (stored := fromkeys (filter truthy (map normalize skills))).
  assert (Hn : Forall normalized stored).
  { apply Forall_forall. intros e He. unfold stored in He.
    rewrite fromkeys_In, filter_In in He. destruct He as [He Ht].
    apply in_map_iff in He as (s & <- & _).
    destruct (normalize_fix s) as [Hl Hs]. repeat split; try assumption.
    intros E. now rewrite E in Ht. }
  assert (E : fromkeys (filter truthy (map normalize stored)) = stored).
  { assert (E1 : map normalize stored = stored).
    { clear -Hn. induction Hn as [|e l He _ IH]; [reflexivity|].
      cbn [map]. now rewrite IH, (normalized_fixed e He). }
    assert (E2 : filter truthy stored = stored).
    { clear -Hn. induction Hn as [|e l He _ IH]; [reflexivity|].
      cbn [filter]. destruct He as (_ & _ & Hne).
      destruct e; [congruence|]. cbn [truthy]. now rewrite IH. }
    rewrite E1, E2. apply fromkeys_fixed, fromkeys_NoDup. }
  unfold encode_texts. cbn [model]. now rewrite E.
Qed.

(** X6. [batch_find_similar]. The keys of the result are the queries, each
    once, in the order in which they are first seen; the value of a query
    is what [find_similar] returns for it, and a text that is not among
    the queries has no entry. *)
Theorem batch_find_similar_lookup self queries top_k threshold :
  let results := batch_find_similar cos_sim self queries top_k threshold in
  PyDict.keys results = fromkeys queries /\
  NoDup (PyDict.keys results) /\
  forall query,
    PyDict.get results query
    = if mem query queries
      then Some (find_similar cos_sim self query top_k threshold)
      else None.
Proof.
  intros results. unfold results, batch_find_similar.
  rewrite (fold_set_keys
             (fun q => find_similar cos_sim self q top_k threshold)).
  unfold PyDict.keys. rewrite map_map. cbn [fst]. rewrite map_id.
  split; [reflexivity|]. split; [apply fromkeys_NoDup|].
  intros query. rewrite get_map_keys. now rewrite mem_fromkeys.
Qed.

(** X7. [calculate_similarity], case and white space. The similarity of two
    texts does not change when either text is replaced by a variant that
    differs in the case of letters and in white space around it. *)
Theorem calculate_similarity_variant self text1 text1' text2 text2' :
  variant text1 text1' ->
  variant text2 text2' ->
  calculate_similarity cos_sim self text1 text2
  = calculate_similarity cos_sim self text1' text2'.
Proof.
  intros H1 H2. unfold calculate_similarity.
  now rewrite (variant_normalized _ _ H1), (variant_normalized _ _ H2).
Qed.

(** X8. [find_similar] and [calculate_similarity]. On a built index, the
    score [find_similar] reports for a text is the similarity that
    [calculate_similarity] gives for the query and that text. *)
Theorem find_similar_scores_are_similarities enc self query top_k threshold :
  reachable enc self ->
  Forall (fun p => snd p = calculate_similarity cos_sim self query (fst p))
         (find_similar cos_sim self query top_k threshold).
Proof.
  intros Hr. destruct (reachable_corpus enc self Hr) as [_ Hnorm].
  destruct (reachable_inv vec enc self Hr) as [Hm _].
  rewrite find_similar_take, (full_ranking_reachable enc) by exact Hr.
  apply Forall_forall. intros p Hp. apply take_incl in Hp.
  apply (Permutation_in _ (Permutation_sym (sort_desc_perm _ snd _))) in Hp.
  unfold candidates in Hp. apply filter_In in Hp as [Hp _].
  apply in_map_iff in Hp as (c & <- & Hc). cbn [fst snd].
  unfold calculate_similarity, score_of. rewrite Hm.
  rewrite Forall_forall in Hnorm.
  pose proof (normalized_fixed c (Hnorm c Hc)) as E.
  unfold normalize in E. now rewrite E.
Qed.


End MatcherMoreFacts.

(** ** [SkillExtractionService], further properties *)

Section ExtractionMoreFacts.

Import Extraction ResumeExtraction.

Variable vec : Type.
Variable cos_sim : vec -> vec -> Q.

Implicit Types (enc : string -> vec).
Implicit Types (self : SkillExtractionService vec).
Implicit Types (skills candidate_skills job_requirements : list string).
Implicit Types (threshold : Q) (top_k : Z).

Lemma strip_empty : strip EmptyString = EmptyString.
Proof. reflexivity. Qed.

Lemma valid_filter skills :
  filter (fun s => truthy s && truthy (strip s)) skills = filter valid skills.
Proof.
  apply filter_ext. intros s. unfold valid.
  destruct s; [reflexivity|]. reflexivity.
Qed.

Lemma match_step_valid self threshold top_k matched log s :
  valid s = true ->
  match_step cos_sim self threshold top_k (matched, log) s
  = (matched ++ [entry_for cos_sim self threshold top_k (strip s)],
     log ++ [mkQuery (strip s) top_k threshold]).
Proof.
  unfold valid, match_step, entry_for. intros ->. cbn [negb].
  now destruct (find_similar cos_sim (skills_matcher self) (strip s)
                  top_k threshold).
Qed.

Lemma match_loop self threshold top_k l matched log :
  Forall (fun s => valid s = true) l ->
  fold_left (match_step cos_sim self threshold top_k) l (matched, log)
  = (matched ++ map (fun s => entry_for cos_sim self threshold top_k (strip s)) l,
     log ++ map (fun s => mkQuery (strip s) top_k threshold) l).
Proof.
  intros H. revert matched log.
  induction H as [|s l Hs _ IH]; intros matched log.
  - cbn. now rewrite !app_nil_r.
  - cbn [fold_left map]. rewrite (match_step_valid _ _ _ _ _ _ Hs), IH.
    now rewrite <- !app_assoc.
Qed.

Lemma match_skills_with_bert_eq self skills threshold top_k :
  is_corpus_ready (skills_matcher self) = true ->
  match_skills_with_bert cos_sim self skills threshold top_k
  = (Returned (map (fun s => entry_for cos_sim self threshold top_k (strip s))
                   (filter valid skills)),
     map (fun s => mkQuery (strip s) top_k threshold) (filter valid skills)).
Proof.
  intros Hready. unfold match_skills_with_bert. rewrite Hready. cbn [negb].
  destruct skills as [|s0 l0]; [reflexivity|].
  rewrite valid_filter.
  destruct (filter valid (s0 :: l0)) as [|v l] eqn:E; [reflexivity|].
  rewrite match_loop; [reflexivity|].
  rewrite <- E. apply Forall_forall. intros s Hs.
  now apply filter_In in Hs.
Qed.

Lemma Qgt_bool_iff (x y : Q) : Qgt_bool x y = true <-> (y < x)%Q.
Proof.
  unfold Qgt_bool. rewrite negb_true_iff. split.
  - intros H. apply Qnot_le_lt. intros Hle.
    apply Qle_bool_iff in Hle. congruence.
  - intros H. destruct (Qle_bool x y) eqn:E; [|reflexivity].
    apply Qle_bool_iff in E. exfalso. exact (Qlt_not_le _ _ H E).
Qed.

Lemma Qgt_bool_false (x y : Q) : Qgt_bool x y = false <-> (x <= y)%Q.
Proof.
  unfold Qgt_bool. rewrite negb_false_iff. apply Qle_bool_iff.
Qed.


Lemma head_take {B : Type} (k : Z) (l : list B) :
  (1 <= k)%Z -> hd_error (take k l) = hd_error l.
Proof.
  intros H. rewrite take_pos by lia.
  destruct (Z.to_nat k) as [|n] eqn:E; [lia|]. now destruct l.
Qed.

Lemma entry_for_head self threshold top_k skill :
  entry_for cos_sim self threshold top_k skill
  = match hd_error (find_similar cos_sim (skills_matcher self) skill
                      top_k threshold) with
    | Some best_match =>
        mkSkillMatch skill (Some (fst best_match)) (snd best_match)
          (if Qgt_bool (snd best_match) (85 # 100) then high else medium) None
    | None =>
        mkSkillMatch skill None 0 low
          (Some "Sem match acima do threshold"%string)
    end.
Proof.
  unfold entry_for.
  now destruct (find_similar cos_sim (skills_matcher self) skill
                  top_k threshold).
Qed.

(** X11. [match_skills_with_bert], the best entry. On a built and ready index
    and with [top_k >= 1], the entries do not depend on [top_k]; a
    candidate is mapped to an entry of the corpus whose similarity to it
    is the greatest of the corpus, and it is left without a match only
    when every entry of the corpus is below the threshold. *)
Theorem match_skills_with_bert_best enc self skills threshold top_k :
  reachable enc (skills_matcher self) ->
  is_corpus_ready (skills_matcher self) = true ->
  (1 <= top_k)%Z ->
  exists matched,
    answer_of (match_skills_with_bert cos_sim self skills threshold top_k)
    = Some matched /\
    answer_of (match_skills_with_bert cos_sim self skills threshold 1)
    = Some matched /\
    Forall
      (fun e =>
         match matched_skill e with
         | Some text =>
             In text (corpus (skills_matcher self)) /\
             similarity_score e = score_of cos_sim enc (original e) text /\
             Forall (fun c => (score_of cos_sim enc (original e) c
                               <= similarity_score e)%Q)
                    (corpus (skills_matcher self))
         | None =>
             Forall (fun c => (score_of cos_sim enc (original e) c
                               < threshold)%Q)
                    (corpus (skills_matcher self))
         end)
      matched.
Proof.
  intros Hr Hready Hk.
  assert (Hhead : forall k s,
             (1 <= k)%Z ->
             hd_error (find_similar cos_sim (skills_matcher self) s k threshold)
             = hd_error (sort_desc snd
                           (candidates cos_sim enc (skills_matcher self) s
                              threshold))).
  { intros k s Hk1. rewrite find_similar_take, head_take by exact Hk1.
    now rewrite (full_ranking_reachable vec cos_sim enc). }
  exists (map (fun s => entry_for cos_sim self threshold top_k (strip s))
              (filter valid skills)).
  rewrite !match_skills_with_bert_eq by exact Hready.
  unfold answer_of. cbn [fst].
  split; [reflexivity|]. split.
  { f_equal. apply map_ext. intros s.
    rewrite !entry_for_head, !Hhead by lia. reflexivity. }
  apply Forall_forall. intros e He. apply in_map_iff in He as (s & <- & _).
  rewrite entry_for_head, Hhead by exact Hk.
  set (q := strip s).
  set (kept := candidates cos_sim enc (skills_matcher self) q threshold).
  destruct (sort_desc snd kept) as [|best rest] eqn:E;
    cbn [hd_error matched_skill similarity_score original].
  - assert (Hk0 : kept = []).
    { apply Permutation_nil. rewrite <- E.
      apply Permutation_sym, sort_desc_perm. }
    apply Forall_forall. intros c Hc. apply Qnot_le_lt. intros Hle.
    assert (Hin : In (c, score_of cos_sim enc q c) kept).
    { unfold kept, candidates. apply filter_In. split.
      - apply in_map_iff. now exists c.
      - unfold clears. now apply Qle_bool_iff. }
    rewrite Hk0 in Hin. exact Hin.
  - pose proof (sort_desc_head _ snd best rest kept E) as Hmax.
    assert (Hb : In best kept).
    { apply (Permutation_in _ (Permutation_sym (sort_desc_perm _ snd kept))).
      rewrite E. now left. }
    unfold kept, candidates in Hb. apply filter_In in Hb as [Hb Hcl].
    apply in_map_iff in Hb as (t & <- & Ht). cbn [fst snd] in *.
    split; [exact Ht|]. split; [reflexivity|].
    apply Forall_forall. intros c Hc.
    destruct (Qlt_le_dec (score_of cos_sim enc q c) threshold) as [Hlt | Hge].
    + apply Qlt_le_weak. eapply Qlt_le_trans; [exact Hlt|].
      unfold clears in Hcl. now apply Qle_bool_iff in Hcl.
    + rewrite Forall_forall in Hmax.
      apply (Hmax (c, score_of cos_sim enc q c)).
      unfold kept, candidates. apply filter_In. split.
      * apply in_map_iff. now exists c.
      * unfold clears. now apply Qle_bool_iff.
Qed.

End ExtractionMoreFacts.

(** ** Sums, ratios and truncation *)

Section MoreNumbers.

Lemma py_int_floor (x : Q) : (0 <= x)%Q -> py_int x = Qfloor x.
Proof.
  destruct x as [n d]. unfold Qle, py_int, Qfloor. cbn. intros H.
  apply Z.quot_div_nonneg; lia.
Qed.

Lemma py_int_le (x y : Q) : (0 <= x)%Q -> (x <= y)%Q -> (py_int x <= py_int y)%Z.
Proof.
  intros Hx Hxy. rewrite !py_int_floor; [|eapply Qle_trans; eassumption|assumption].
  now apply Qfloor_resp_le.
Qed.

Lemma py_int_Z (x : Q) (z : Z) : (0 <= z)%Z -> (x == inject_Z z)%Q -> py_int x = z.
Proof.
  intros Hz E. rewrite py_int_floor.
  - rewrite E. apply Qfloor_Z.
  - rewrite E. change 0%Q with (inject_Z 0). now rewrite <- Zle_Qle.
Qed.

Lemma sum_nil : PyList.sum [] = 0%Q.
Proof. reflexivity. Qed.

Lemma sum_lower (c : Q) (l : list Q) :
  Forall (fun v => (c <= v)%Q) l ->
  (c * inject_Z (Z.of_nat (List.length l)) <= PyList.sum l)%Q.
Proof.
  induction 1 as [|v l Hv _ IH].
  - cbn [List.length]. change (inject_Z (Z.of_nat 0)) with 0%Q.
    change (PyList.sum []) with 0%Q. lra.
  - rewrite sum_cons. cbn [List.length].
    rewrite Nat2Z.inj_succ. unfold Z.succ. rewrite inject_Z_plus.
    change (inject_Z 1) with 1%Q. lra.
Qed.

Lemma sum_le_pointwise {B : Type} (f g : B -> Q) (l : list B) :
  (forall b, In b l -> (f b <= g b)%Q) ->
  (PyList.sum (map f l) <= PyList.sum (map g l))%Q.
Proof.
  induction l as [|b l IH]; intros H.
  - apply Qle_refl.
  - cbn [map]. rewrite !sum_cons.
    assert (H1 := H b (or_introl eq_refl)).
    assert (H2 : (PyList.sum (map f l) <= PyList.sum (map g l))%Q)
      by (apply IH; intros; apply H; now right).
    lra.
Qed.

Lemma sum_ones {B : Type} (f : B -> Q) (l : list B) :
  (forall b, In b l -> f b = 1%Q) ->
  (PyList.sum (map f l) == inject_Z (Z.of_nat (List.length l)))%Q.
Proof.
  induction l as [|b l IH]; intros H.
  - reflexivity.
  - cbn [map List.length]. rewrite sum_cons, IH by (intros; apply H; now right).
    rewrite (H b (or_introl eq_refl)).
    rewrite Nat2Z.inj_succ. unfold Z.succ. rewrite inject_Z_plus.
    change (inject_Z 1) with 1%Q. lra.
Qed.

Lemma count_pos (n : nat) : 0 < n -> (0 < inject_Z (Z.of_nat n))%Q.
Proof.
  intros H. change 0%Q with (inject_Z 0). rewrite <- Zlt_Qlt. lia.
Qed.

Lemma ratio_le (l l' : list Q) (n : nat) :
  0 < n -> (PyList.sum l <= PyList.sum l')%Q -> (ratio l n <= ratio l' n)%Q.
Proof.
  intros Hn H. unfold ratio, Qdiv.
  apply Qmult_le_compat_r; [exact H|].
  apply Qlt_le_weak, Qinv_lt_0_compat, count_pos, Hn.
Qed.

Lemma ratio_lower (c : Q) (l : list Q) (n : nat) :
  0 < n -> (c <= PyList.sum l)%Q ->
  (c / inject_Z (Z.of_nat n) <= ratio l n)%Q.
Proof.
  intros Hn H. unfold ratio, Qdiv.
  apply Qmult_le_compat_r; [exact H|].
  apply Qlt_le_weak, Qinv_lt_0_compat, count_pos, Hn.
Qed.

End MoreNumbers.

(** ** [calculate_profile_match], further properties *)

Section ProfileMatchFacts.

Import Extraction ResumeExtraction.

Variable vec : Type.
Variable cos_sim : vec -> vec -> Q.

Implicit Types (self : SkillExtractionService vec).
Implicit Types (candidate_skills job_requirements : list string).

(** The average score of the full answer. *)
Lemma average_ratio (scores : list Q) (n : nat) :
  (match scores with [] => 0 | _ :: _ => ratio scores n end == ratio scores n)%Q.
Proof.
  destruct scores; [|reflexivity].
  unfold ratio, PyList.sum. cbn [fold_left]. unfold Qdiv. ring.
Qed.

(** The full answer, the loop replaced by what it computes. *)
Lemma calculate_profile_match_full self candidate_skills job_requirements
    weight_match weight_similarity :
  candidate_skills <> [] ->
  job_requirements <> [] ->
  exists report,
    calculate_profile_match cos_sim self candidate_skills job_requirements
      weight_match weight_similarity
    = (Returned (MatchDict report),
       flat_map (asked candidate_skills) job_requirements) /\
    matched_skills report
    = filter (requirement_matched cos_sim self candidate_skills)
             job_requirements /\
    missing_skills report
    = filter (fun r => negb (requirement_matched cos_sim self
                               candidate_skills r))
             job_requirements /\
    (match_score report
     == ratio (flat_map (scored cos_sim self candidate_skills) job_requirements)
              (List.length job_requirements))%Q /\
    match_percentage report = Z.min 100 (py_int (match_score report * 100)) /\
    level report = level_of (match_percentage report) /\
    matched_count report = List.length (matched_skills report) /\
    missing_count report = List.length (missing_skills report) /\
    required_count report = List.length job_requirements /\
    required_skills report = job_requirements /\
    recommendation report
    = (if (75 <=? match_percentage report)%Z then Forte_candidato
       else Candidato_em_desenvolvimento).
Proof.
  intros Hc Hr.
  destruct candidate_skills as [|c cs]; [congruence|].
  destruct job_requirements as [|r rs]; [congruence|].
  set (cands := c :: cs) in *. set (reqs := r :: rs) in *.
  unfold calculate_profile_match. fold cands. fold reqs.
  change (match reqs with
          | [] => (Returned (ErrorDict "Nenhum requisito fornecido"), [])
          | _ :: _ => ?x
          end) with x.
  change (match cands with
          | [] => ?a
          | _ :: _ => ?x
          end) with x.
  rewrite (requirement_loop vec cos_sim self cands reqs).
  cbn [t_matched t_missing t_scores t_log app].
  eexists. split; [reflexivity|].
  cbn [matched_skills missing_skills match_score match_percentage level
       matched_count missing_count required_count required_skills
       recommendation].
  repeat split. apply average_ratio.
Qed.

Lemma partition_perm {B : Type} (p : B -> bool) (l : list B) :
  Permutation (filter p l ++ filter (fun b => negb (p b)) l) l.
Proof.
  induction l as [|b l IH]; [constructor|]. cbn [filter].
  destruct (p b); cbn [negb app].
  - now constructor.
  - apply Permutation_sym, Permutation_cons_app, Permutation_sym, IH.
Qed.

Lemma partition_length {B : Type} (p : B -> bool) (l : list B) :
  List.length (filter p l) + List.length (filter (fun b => negb (p b)) l)
  = List.length l.
Proof.
  rewrite <- length_app. apply Permutation_length, partition_perm.
Qed.

(** X12. [calculate_profile_match], nothing lost. Whenever there is a
    requirement, the answer has the keys ["matched_skills"] and
    ["missing_skills"]; each requirement is in one of the two lists and in
    that one only, in the order of the input, so the two sizes add up to
    the number of requirements. *)
Theorem calculate_profile_match_partition self candidate_skills
    job_requirements weight_match weight_similarity :
  job_requirements <> [] ->
  exists answer matched missing,
    answer_of (calculate_profile_match cos_sim self candidate_skills
                 job_requirements weight_match weight_similarity)
    = Some answer /\
    get_matched_skills answer = Some matched /\
    get_missing_skills answer = Some missing /\
    Permutation (matched ++ missing) job_requirements /\
    List.length matched + List.length missing = List.length job_requirements /\
    (forall r, In r matched -> ~ In r missing) /\
    (exists keep,
        matched = filter keep job_requirements /\
        missing = filter (fun r => negb (keep r)) job_requirements).
Proof.
  intros Hr. destruct candidate_skills as [|c cs].
  - destruct job_requirements as [|r rs]; [congruence|].
    exists (NoSkillsDict 0 0 (r :: rs) [] (r :: rs)), [], (r :: rs).
    repeat split; try reflexivity.
    + intros q [].
    + exists (fun _ => false). split; [|cbn [negb]].
      * clear. induction (r :: rs) as [|a l IH]; [reflexivity|exact IH].
      * clear. induction (r :: rs) as [|a l IH]; [reflexivity|].
        cbn [filter]. now rewrite <- IH.
  - destruct (calculate_profile_match_full self (c :: cs) job_requirements
                weight_match weight_similarity) as (report & E & Hm & Hx & _);
      [discriminate|exact Hr|].
    exists (MatchDict report), (matched_skills report), (missing_skills report).
    unfold answer_of. rewrite E. cbn [fst get_matched_skills get_missing_skills].
    rewrite Hm, Hx.
    repeat split; try reflexivity.
    + apply partition_perm.
    + apply partition_length.
    + intros q Hq Hq'. apply filter_In in Hq as [_ Hq], Hq' as [_ Hq'].
      rewrite Hq in Hq'. discriminate.
    + eexists. split; reflexivity.
Qed.

Lemma matched_score_lower self candidate_skills r :
  requirement_matched cos_sim self candidate_skills r = true ->
  (70 # 100 <= requirement_score cos_sim self candidate_skills r)%Q.
Proof.
  unfold requirement_matched, requirement_score, semantic_score.
  destruct (exact candidate_skills r); [intros _; unfold Qle; cbn; lia|].
  cbn [orb].
  pose proof (find_similar_clears vec cos_sim (skills_matcher self) r 1
                (70 # 100)) as Hc.
  destruct (find_similar cos_sim (skills_matcher self) r 1 (70 # 100))
    as [|[text s] rest]; [discriminate|].
  inversion Hc as [|? ? Hs _]; subst. cbn [snd] in Hs.
  destruct (existsb _ candidate_skills); [intros _; exact Hs|discriminate].
Qed.

Lemma scored_lower self candidate_skills job_requirements :
  Forall (fun v => (70 # 100 <= v)%Q)
         (flat_map (scored cos_sim self candidate_skills) job_requirements).
Proof.
  apply Forall_forall. intros v Hv.
  apply in_flat_map in Hv as (r & _ & Hv). unfold scored in Hv.
  destruct (requirement_matched cos_sim self candidate_skills r) eqn:E;
    [|destruct Hv].
  destruct Hv as [<- | []]. now apply matched_score_lower.
Qed.

Lemma scored_length self candidate_skills job_requirements :
  List.length (flat_map (scored cos_sim self candidate_skills) job_requirements)
  = List.length (filter (requirement_matched cos_sim self candidate_skills)
                        job_requirements).
Proof.
  induction job_requirements as [|r l IH]; [reflexivity|].
  cbn [flat_map filter]. rewrite length_app, IH. unfold scored.
  now destruct (requirement_matched cos_sim self candidate_skills r).
Qed.


Lemma existsb_same {B : Type} (f : B -> bool) (l l' : list B) :
  (forall b, In b l <-> In b l') -> existsb f l = existsb f l'.
Proof.
  intros H. destruct (existsb f l) eqn:E; symmetry.
  - apply existsb_exists in E as (b & Hb & Hf). apply existsb_exists.
    exists b. split; [now apply H|exact Hf].
  - destruct (existsb f l') eqn:E'; [|reflexivity].
    apply existsb_exists in E' as (b & Hb & Hf).
    assert (Ht : existsb f l = true)
      by (apply existsb_exists; exists b; split; [now apply H|exact Hf]).
    congruence.
Qed.

Lemma requirement_step_same self (lowered lowered' : list string) st r :
  (forall x, In x lowered <-> In x lowered') ->
  requirement_step cos_sim self lowered st r
  = requirement_step cos_sim self lowered' st r.
Proof.
  intros H. unfold requirement_step, exact_match, mem.
  rewrite (existsb_same _ lowered lowered' H).
  destruct (existsb _ lowered'); [reflexivity|].
  destruct (find_similar cos_sim (skills_matcher self) r 1 (70 # 100))
    as [|[text s] rest]; [reflexivity|].
  now rewrite (existsb_same _ lowered lowered' H).
Qed.

(** X14. [calculate_profile_match], the candidate skills as a set. The answer
    and the calls to the index depend on the candidate skills only through
    the set of their lower-cased texts: their order, their repetitions and
    the case of their letters change nothing. *)
Theorem calculate_profile_match_candidate_set self candidate_skills
    candidate_skills' job_requirements weight_match weight_similarity :
  (forall x, In x (map lower candidate_skills)
             <-> In x (map lower candidate_skills')) ->
  calculate_profile_match cos_sim self candidate_skills job_requirements
    weight_match weight_similarity
  = calculate_profile_match cos_sim self candidate_skills' job_requirements
      weight_match weight_similarity.
Proof.
  intros H. unfold calculate_profile_match.
  destruct job_requirements as [|r rs]; [reflexivity|].
  destruct candidate_skills as [|c cs], candidate_skills' as [|c' cs'].
  - reflexivity.
  - exfalso. apply (H (lower c')). now left.
  - exfalso. apply (H (lower c)). now left.
  - assert (E : forall l st,
               fold_left (requirement_step cos_sim self (map lower (c :: cs)))
                         l st
               = fold_left (requirement_step cos_sim self
                              (map lower (c' :: cs'))) l st).
    { induction l as [|q l IH]; intros st; [reflexivity|].
      cbn [fold_left]. rewrite IH. f_equal.
      now apply requirement_step_same. }
    now rewrite E.
Qed.

Lemma ranking_bounded (u : Q) (m : SkillsMatcher vec) query top_k threshold :
  (forall a b, (cos_sim a b <= u)%Q) ->
  Forall (fun p => (snd p <= u)%Q)
         (find_similar cos_sim m query top_k threshold).
Proof.
  intros Hu. rewrite find_similar_take. apply Forall_forall. intros p Hp.
  apply take_incl in Hp. unfold full_ranking in Hp.
  destruct (corpus_embeddings m) as [embs|]; [|destruct Hp].
  destruct (List.length (corpus m) =? 0); [destruct Hp|].
  destruct (model m) as [enc|]; [|destruct Hp].
  destruct (above_threshold m threshold 0 _) as [r|] eqn:E; [|destruct Hp].
  apply (Permutation_in _ (Permutation_sym (sort_desc_perm _ snd r))) in Hp.
  assert (Hgen : forall sims idx res,
             Forall (fun v => (v <= u)%Q) sims ->
             above_threshold m threshold idx sims = Some res ->
             Forall (fun p => (snd p <= u)%Q) res).
  { induction sims as [|s sims IH]; intros idx res Hs Hres.
    - injection Hres as <-. constructor.
    - inversion Hs; subst. cbn [above_threshold] in Hres.
      destruct (Qle_bool threshold s); [|now apply (IH (S idx))].
      destruct (nth_error (corpus m) idx); [|discriminate].
      destruct (above_threshold m threshold (S idx) sims) eqn:Er;
        [|discriminate].
      injection Hres as <-. constructor; [assumption|now apply (IH (S idx))]. }
  assert (Hall := Hgen _ _ _ (proj2 (Forall_forall _ _)
                     (fun v Hv => match proj1 (in_map_iff _ _ _) Hv with
                                  | ex_intro _ w (conj Ew _) =>
                                      eq_ind _ (fun z => (z <= u)%Q)
                                             (Hu _ w) _ Ew
                                  end)) E).
  rewrite Forall_forall in Hall. now apply Hall.
Qed.

Lemma requirement_score_grows self candidate_skills more r :
  (forall a b, (cos_sim a b <= 1)%Q) ->
  (requirement_score cos_sim self candidate_skills r
   <= requirement_score cos_sim self (candidate_skills ++ more) r)%Q.
Proof.
  intros Hu. unfold requirement_score, semantic_score, exact, exact_match.
  rewrite map_app, existsb_app.
  destruct (existsb _ (map lower candidate_skills)); [apply Qle_refl|].
  cbn [orb].
  pose proof (ranking_bounded 1 (skills_matcher self) r 1 (70 # 100) Hu) as Hb.
  pose proof (find_similar_clears vec cos_sim (skills_matcher self) r 1
                (70 # 100)) as Hc.
  destruct (find_similar cos_sim (skills_matcher self) r 1 (70 # 100))
    as [|[text s] rest].
  - destruct (existsb _ (map lower more)); [unfold Qle; cbn; lia|apply Qle_refl].
  - inversion Hb as [|? ? Hs1 _]; subst. inversion Hc as [|? ? Hs7 _]; subst.
    cbn [snd] in *. rewrite existsb_app.
    destruct (existsb _ candidate_skills); cbn [orb].
    + destruct (existsb _ (map lower more)); [exact Hs1|apply Qle_refl].
    + destruct (existsb _ (map lower more)); [unfold Qle; cbn; lia|].
      destruct (existsb _ more); [|apply Qle_refl]. lra.
Qed.

(** X15. [calculate_profile_match], more skills. When no similarity exceeds 1,
    a candidate who adds skills to a list that is not empty never gets a
    lower score or a lower percentage for the same requirements. *)
Theorem calculate_profile_match_more_skills self candidate_skills more
    job_requirements weight_match weight_similarity :
  (forall a b, (cos_sim a b <= 1)%Q) ->
  candidate_skills <> [] ->
  job_requirements <> [] ->
  exists report report',
    answer_of (calculate_profile_match cos_sim self candidate_skills
                 job_requirements weight_match weight_similarity)
    = Some (MatchDict report) /\
    answer_of (calculate_profile_match cos_sim self (candidate_skills ++ more)
                 job_requirements weight_match weight_similarity)
    = Some (MatchDict report') /\
    (match_score report <= match_score report')%Q /\
    (match_percentage report <= match_percentage report')%Z.
Proof.
  intros Hu Hc Hr.
  assert (Hc' : candidate_skills ++ more <> []).
  { destruct candidate_skills; [congruence|discriminate]. }
  destruct (calculate_profile_match_full self candidate_skills job_requirements
              weight_match weight_similarity Hc Hr)
    as (report & E & _ & _ & Hs & Hp & _).
  destruct (calculate_profile_match_full self (candidate_skills ++ more)
              job_requirements weight_match weight_similarity Hc' Hr)
    as (report' & E' & _ & _ & Hs' & Hp' & _).
  exists report, report'. unfold answer_of. rewrite E, E'. cbn [fst].
  split; [reflexivity|]. split; [reflexivity|].
  assert (Hn : 0 < List.length job_requirements).
  { destruct job_requirements; [congruence|cbn; lia]. }
  assert (Hle : (match_score report <= match_score report')%Q).
  { rewrite Hs, Hs'. apply ratio_le; [exact Hn|].
    rewrite !(scored_sum vec cos_sim). apply sum_le_pointwise.
    intros r _. now apply requirement_score_grows. }
  split; [exact Hle|].
  assert (H0 : (0 <= match_score report)%Q).
  { rewrite Hs. unfold ratio.
    apply Qle_shift_div_l; [now apply count_pos|]. rewrite Qmult_0_l.
    pose proof (sum_lower (70 # 100) _
                  (scored_lower self candidate_skills job_requirements)) as Hl.
    eapply Qle_trans; [|exact Hl].
    apply Qmult_le_0_compat; [unfold Qle; cbn; lia|].
    change 0%Q with (inject_Z 0). rewrite <- Zle_Qle. lia. }
  rewrite Hp, Hp'.
  apply Z.min_le_compat_l. apply py_int_le; lra.
Qed.

(** X16. [calculate_profile_match], a candidate who has it all. When every
    requirement is contained in a candidate skill or contains one, case
    apart, the score is 1, the percentage 100 and the level the highest;
    every requirement is matched, none is missing, and the index is not
    queried. *)
Theorem calculate_profile_match_all_contained self candidate_skills
    job_requirements weight_match weight_similarity :
  job_requirements <> [] ->
  Forall (contained candidate_skills) job_requirements ->
  exists report,
    calculate_profile_match cos_sim self candidate_skills job_requirements
      weight_match weight_similarity
    = (Returned (MatchDict report), []) /\
    (match_score report == 1)%Q /\
    match_percentage report = 100%Z /\
    level report = EXCELENTE /\
    recommendation report = Forte_candidato /\
    matched_skills report = job_requirements /\
    missing_skills report = [].
Proof.
  intros Hr Hall.
  assert (Hex : forall r, In r job_requirements ->
                          exact candidate_skills r = true).
  { intros r Hin. apply (exact_contained candidate_skills r).
    rewrite Forall_forall in Hall. now apply Hall. }
  assert (Hc : candidate_skills <> []).
  { destruct job_requirements as [|r rs]; [congruence|].
    inversion Hall as [|? ? (cs & Hcs & _) _]; subst.
    intros ->. destruct Hcs. }
  destruct (calculate_profile_match_full self candidate_skills job_requirements
              weight_match weight_similarity Hc Hr)
    as (report & E & Hm & Hx & Hs & Hp & Hl & _ & _ & _ & _ & Hrec).
  exists report.
  assert (Hlog : flat_map (asked candidate_skills) job_requirements = []).
  { clear -Hex. induction job_requirements as [|r l IH]; [reflexivity|].
    cbn [flat_map]. unfold asked at 1.
    rewrite (Hex r (or_introl eq_refl)). cbn [app].
    apply IH. intros q Hq. apply Hex. now right. }
  assert (Hmatched : forall r, In r job_requirements ->
             requirement_matched cos_sim self candidate_skills r = true).
  { intros r Hin. unfold requirement_matched. now rewrite (Hex r Hin). }
  assert (Hone : (match_score report == 1)%Q).
  { rewrite Hs, (ratio_sum _ _ _ (scored_sum vec cos_sim self candidate_skills
                                     job_requirements)).
    unfold ratio. rewrite (sum_ones (requirement_score cos_sim self
                                       candidate_skills)).
    - apply Qmult_inv_r. intros Hz.
      assert (Hn : 0 < List.length job_requirements)
        by (destruct job_requirements; [congruence|cbn; lia]).
      apply (Qlt_not_eq _ _ (count_pos _ Hn)). now symmetry.
    - intros r Hin. unfold requirement_score. now rewrite (Hex r Hin). }
  assert (Hp100 : match_percentage report = 100%Z).
  { rewrite Hp, (py_int_Z (match_score report * 100) 100); [reflexivity|lia|].
    rewrite Hone. reflexivity. }
  rewrite E, Hlog. split; [reflexivity|]. split; [exact Hone|].
  split; [exact Hp100|]. split; [now rewrite Hl, Hp100|].
  split; [now rewrite Hrec, Hp100|]. split.
  - rewrite Hm. clear -Hmatched.
    induction job_requirements as [|r l IH]; [reflexivity|]. cbn [filter].
    rewrite (Hmatched r (or_introl eq_refl)). f_equal.
    apply IH. intros q Hq. apply Hmatched. now right.
  - rewrite Hx. clear -Hmatched.
    induction job_requirements as [|r l IH]; [reflexivity|]. cbn [filter].
    rewrite (Hmatched r (or_introl eq_refl)). cbn [negb].
    apply IH. intros q Hq. apply Hmatched. now right.
Qed.

End ProfileMatchFacts.

(** ** [extract_resume_skills] *)

Section ResumeFacts.

Import Extraction ResumeExtraction.

Variable vec : Type.
Variable cos_sim : vec -> vec -> Q.

Implicit Types (self : SkillExtractionService vec).

(** Rounding keeps a number between two integers that bound it. *)
Lemma round_half_even_between (x : Q) (a b : Z) :
  (inject_Z a <= x)%Q -> (x <= inject_Z b)%Q ->
  (a <= round_half_even x <= b)%Z.
Proof.
  intros Ha Hb. unfold round_half_even.
  assert (Hfa : (a <= Qfloor x)%Z).
  { rewrite <- (Qfloor_Z a). now apply Qfloor_resp_le. }
  assert (Hfb : (Qfloor x <= b)%Z).
  { rewrite <- (Qfloor_Z b). now apply Qfloor_resp_le. }
  assert (Hup : (0 < x - inject_Z (Qfloor x))%Q -> (Qfloor x + 1 <= b)%Z).
  { intros Hpos.
    assert (Hlt : (inject_Z (Qfloor x) < inject_Z b)%Q) by lra.
    rewrite <- Zlt_Qlt in Hlt. lia. }
  destruct (Qcompare_spec (x - inject_Z (Qfloor x)) (1 # 2)) as [E | E | E].
  - destruct (Z.even (Qfloor x)); [lia|].
    split; [lia|]. apply Hup. rewrite E. reflexivity.
  - lia.
  - split; [lia|]. apply Hup. lra.
Qed.

Lemma round1_percent (x : Q) :
  (0 <= x)%Q -> (x <= 100)%Q -> (0 <= round1 x)%Q /\ (round1 x <= 100)%Q.
Proof.
  intros H0 H1. unfold round1.
  destruct (round_half_even_between (x * 10) 0 1000) as [Hl Hu].
  - change (inject_Z 0) with 0%Q. lra.
  - change (inject_Z 1000) with 1000%Q. lra.
  - unfold Qle. cbn. lia.
Qed.

(** X17. [extract_resume_skills], the numbers of the answer. The call returns;
    [total_skills_found] is the number of terms found in the text; the
    list of skills has one entry per term that is not blank when the index
    is ready and is empty when it is not; [successful_matches] never
    exceeds the length of that list, which never exceeds
    [total_skills_found]; the match rate lies between 0 and 100; and the
    index is queried once per entry. *)
Theorem extract_resume_skills_counts self all_skills threshold top_k :
  exists answer log,
    extract_resume_skills cos_sim self all_skills threshold top_k
    = (Returned answer, log) /\
    total_skills_found answer = List.length all_skills /\
    List.length (skills answer)
    = (if is_corpus_ready (Extraction.skills_matcher self)
       then List.length (filter valid all_skills) else 0) /\
    successful_matches answer = List.length (filter has_match (skills answer)) /\
    successful_matches answer <= List.length (skills answer) /\
    List.length (skills answer) <= total_skills_found answer /\
    (0 <= match_rate answer)%Q /\ (match_rate answer <= 100)%Q /\
    List.length log = List.length (skills answer).
Proof.
  unfold extract_resume_skills.
  assert (Hm : exists mapped log,
             match_skills_with_bert cos_sim self all_skills threshold top_k
             = (Returned mapped, log) /\
             List.length mapped
             = (if is_corpus_ready (Extraction.skills_matcher self)
                then List.length (filter valid all_skills) else 0) /\
             List.length log = List.length mapped).
  { destruct (is_corpus_ready (Extraction.skills_matcher self)) eqn:Hready.
    - rewrite match_skills_with_bert_eq by exact Hready.
      eexists. eexists. split; [reflexivity|].
      rewrite !length_map. split; reflexivity.
    - exists [], []. unfold match_skills_with_bert. rewrite Hready.
      cbn [negb]. now destruct all_skills. }
  destruct Hm as (mapped & log & -> & Hlen & Hlog).
  eexists. eexists. split; [reflexivity|].
  cbn [total_skills_found skills successful_matches match_rate].
  pose proof (filter_length has_match mapped) as Hs.
  assert (Hv : List.length mapped <= List.length all_skills).
  { rewrite Hlen. destruct (is_corpus_ready _); [|lia].
    pose proof (filter_length valid all_skills). lia. }
  split; [reflexivity|]. split; [exact Hlen|]. split; [reflexivity|].
  split; [lia|]. split; [exact Hv|].
  assert (Hrate : (0 <= match all_skills with
                        | [] => 0
                        | _ :: _ =>
                            round1 (inject_Z (Z.of_nat
                                      (List.length (filter has_match mapped)))
                                    / inject_Z (Z.of_nat (List.length all_skills))
                                    * 100)
                        end)%Q /\
                  (match all_skills with
                   | [] => 0
                   | _ :: _ =>
                       round1 (inject_Z (Z.of_nat
                                 (List.length (filter has_match mapped)))
                               / inject_Z (Z.of_nat (List.length all_skills))
                               * 100)
                   end <= 100)%Q).
  { destruct all_skills as [|a l] eqn:Ea.
    - split; unfold Qle; cbn; lia.
    - rewrite <- Ea in *.
      assert (Hn : 0 < List.length all_skills) by (rewrite Ea; cbn; lia).
      pose proof (count_pos _ Hn) as Hpos.
      set (s := inject_Z (Z.of_nat (List.length (filter has_match mapped)))).
      set (n := inject_Z (Z.of_nat (List.length all_skills))) in *.
      assert (Hs0 : (0 <= s)%Q).
      { unfold s. change 0%Q with (inject_Z 0). rewrite <- Zle_Qle. lia. }
      assert (Hsn : (s <= n)%Q).
      { unfold s, n. rewrite <- Zle_Qle. lia. }
      apply round1_percent.
      + apply Qmult_le_0_compat; [|unfold Qle; cbn; lia].
        apply Qle_shift_div_l; [exact Hpos|]. now rewrite Qmult_0_l.
      + assert (Hq : (s / n <= 1)%Q).
        { apply Qle_shift_div_r; [exact Hpos|]. now rewrite Qmult_1_l. }
        lra. }
  destruct Hrate as [Hr0 Hr1].
  split; [exact Hr0|]. split; [exact Hr1|exact Hlog].
Qed.

End ResumeFacts.

(** ** [OccupationInferenceService], further properties *)

Section InferenceMoreFacts.

Import Inference OccupationInference.

Variable vec : Type.
Variable cos_sim : vec -> vec -> Q.

Implicit Types (enc : string -> vec).
Implicit Types (self : OccupationInferenceService vec).
Implicit Types (keywords : list string) (threshold : Q) (top_k : Z).

Lemma infer_occupations_eq self keywords top_k threshold :
  infer_occupations cos_sim self keywords top_k threshold
  = take top_k
      (sort_desc score
         (map (consolidate self)
              (grouped (hits cos_sim self keywords threshold)))).
Proof.
  unfold infer_occupations. destruct keywords as [|k ks].
  - cbn. now rewrite take_nil.
  - now rewrite (keyword_loop vec cos_sim), accumulate_grouped.
Qed.

Lemma consolidated_titles self (l : list (string * Q)) :
  map titulo (map (consolidate self) (grouped l)) = fromkeys (map fst l).
Proof. unfold grouped. rewrite !map_map. cbn. apply map_id. Qed.

Lemma hits_clear self keywords threshold :
  Forall (fun p => (threshold <= snd p)%Q) (hits cos_sim self keywords threshold).
Proof.
  unfold hits. apply Forall_forall. intros p Hp.
  apply in_flat_map in Hp as (k & _ & Hp).
  pose proof (find_similar_clears vec cos_sim (Inference.skills_matcher self)
                k 10 threshold) as Hc.
  rewrite Forall_forall in Hc. now apply Hc.
Qed.

Lemma mean_lower (c : Q) (l : list Q) :
  l <> [] -> Forall (fun v => (c <= v)%Q) l -> (c <= mean l)%Q.
Proof.
  intros Hne Hall. unfold mean, ratio.
  assert (Hn : 0 < List.length l) by (destruct l; [congruence|cbn; lia]).
  apply Qle_shift_div_l; [now apply count_pos|].
  now apply sum_lower.
Qed.

(** Rounding is monotone. *)
Lemma round_half_even_le (x y : Q) :
  (x <= y)%Q -> (round_half_even x <= round_half_even y)%Z.
Proof.
  intros H. pose proof (Qfloor_resp_le x y H) as Hf.
  pose proof (Qfloor_le x) as Hx0. pose proof (Qlt_floor x) as Hx1.
  pose proof (Qfloor_le y) as Hy0. pose proof (Qlt_floor y) as Hy1.
  rewrite inject_Z_plus in Hx1, Hy1. change (inject_Z 1) with 1%Q in *.
  destruct (Z.eq_dec (Qfloor x) (Qfloor y)) as [E | Hne].
  - unfold round_half_even. rewrite <- E in *.
    destruct (Qcompare_spec (x - inject_Z (Qfloor x)) (1 # 2)) as [Ex|Ex|Ex];
      destruct (Qcompare_spec (y - inject_Z (Qfloor x)) (1 # 2)) as [Ey|Ey|Ey];
      try (destruct (Z.even (Qfloor x))); try lia; exfalso; lra.
  - assert (Hlt : (Qfloor x + 1 <= Qfloor y)%Z) by lia.
    assert (Hrx : (round_half_even x <= Qfloor x + 1)%Z).
    { unfold round_half_even.
      destruct (Qcompare (x - inject_Z (Qfloor x)) (1 # 2));
        try (destruct (Z.even (Qfloor x))); lia. }
    assert (Hry : (Qfloor y <= round_half_even y)%Z).
    { unfold round_half_even.
      destruct (Qcompare (y - inject_Z (Qfloor y)) (1 # 2));
        try (destruct (Z.even (Qfloor y))); lia. }
    lia.
Qed.

Lemma round4_le (x y : Q) : (x <= y)%Q -> (round4 x <= round4 y)%Q.
Proof.
  intros H. unfold round4, Qle. cbn [Qnum Qden].
  apply Z.mul_le_mono_nonneg_r; [lia|].
  apply round_half_even_le. lra.
Qed.


Lemma hits_nil self keywords threshold :
  hits cos_sim self keywords threshold = [] <->
  Forall (fun k =>
            queried k = false \/
            find_similar cos_sim (Inference.skills_matcher self) k 10 threshold
            = [])
         keywords.
Proof.
  unfold hits. induction keywords as [|k ks IH].
  - split; [constructor|reflexivity].
  - cbn [filter]. destruct (queried k) eqn:Eq.
    + cbn [flat_map]. split.
      * intros H. apply app_eq_nil in H as [H1 H2].
        constructor; [now right|now apply IH].
      * intros H. inversion H as [|? ? [Hk | Hk] Hks]; subst;
          [congruence|]. rewrite Hk. cbn [app]. now apply IH.
    + rewrite IH. split.
      * intros H. constructor; [now left|exact H].
      * intros H. now inversion H.
Qed.

Lemma infer_nil self keywords top_k threshold :
  (1 <= top_k)%Z ->
  infer_occupations cos_sim self keywords top_k threshold = [] <->
  hits cos_sim self keywords threshold = [].
Proof.
  intros Hk. rewrite infer_occupations_eq.
  set (all := hits cos_sim self keywords threshold).
  set (entries := map (consolidate self) (grouped all)). split.
  - intros H.
    assert (Hs : sort_desc score entries = []).
    { pose proof (head_take top_k (sort_desc score entries) Hk) as Hh.
      rewrite H in Hh. cbn in Hh.
      destruct (sort_desc score entries); [reflexivity|discriminate]. }
    assert (He : entries = []).
    { apply Permutation_nil. rewrite <- Hs.
      apply Permutation_sym, sort_desc_perm. }
    assert (Ht : fromkeys (map fst all) = []).
    { rewrite <- (consolidated_titles self). fold entries. now rewrite He. }
    destruct all as [|p l]; [reflexivity|].
    assert (Hin : In (fst p) (fromkeys (map fst (p :: l)))).
    { apply fromkeys_In. now left. }
    rewrite Ht in Hin. destruct Hin.
  - intros H. unfold entries. rewrite H. cbn. now rewrite take_nil.
Qed.

(** X19. [infer_occupations], no occupation. With [top_k >= 1] the list is
    empty exactly when every keyword is either shorter than three
    characters once trimmed, hence not queried, or gets no hit from the
    index; so it is empty on an index that is not ready. *)
Theorem infer_occupations_empty self keywords top_k threshold :
  (1 <= top_k)%Z ->
  (infer_occupations cos_sim self keywords top_k threshold = [] <->
   Forall (fun k =>
             String.length (strip k) < 3 \/
             find_similar cos_sim (Inference.skills_matcher self) k 10 threshold
             = [])
          keywords) /\
  (is_corpus_ready (Inference.skills_matcher self) = false ->
   infer_occupations cos_sim self keywords top_k threshold = []).
Proof.
  intros Hk.
  assert (Hq : forall k, queried k = false <-> String.length (strip k) < 3).
  { intros k. unfold queried. rewrite negb_false_iff. apply Nat.ltb_lt. }
  assert (Hiff : infer_occupations cos_sim self keywords top_k threshold = []
                 <-> Forall (fun k =>
                       String.length (strip k) < 3 \/
                       find_similar cos_sim (Inference.skills_matcher self) k
                         10 threshold = []) keywords).
  { rewrite (infer_nil self keywords top_k threshold Hk), hits_nil.
    split; intros H; apply Forall_forall; intros k Hin;
      rewrite Forall_forall in H; specialize (H k Hin);
      rewrite Hq in *; exact H. }
  split; [exact Hiff|].
  intros Hready. apply Hiff. apply Forall_forall. intros k _. right.
  now apply not_ready_empty.
Qed.

(** X20. [infer_primary_occupation]. The answer is the first entry of
    [infer_occupations] for any [top_k >= 1], or says that no occupation
    was inferred when that list is empty; no entry of that list has a
    higher score than the answer. *)
Theorem infer_primary_occupation_first self keywords top_k threshold :
  (1 <= top_k)%Z ->
  let found := infer_occupations cos_sim self keywords top_k threshold in
  infer_primary_occupation cos_sim self keywords threshold
  = match found with
    | first :: _ => Occupation first
    | [] => NoOccupation
    end /\
  Forall (fun e =>
            (score e
             <= primary_score
                  (infer_primary_occupation cos_sim self keywords threshold))%Q)
         found.
Proof.
  intros Hk found. unfold found, infer_primary_occupation.
  rewrite !infer_occupations_eq.
  set (ranked := sort_desc score
                   (map (consolidate self)
                        (grouped (hits cos_sim self keywords threshold)))).
  assert (Hs : StronglySorted (desc score) ranked)
    by apply sort_desc_sorted.
  pose proof (head_take top_k ranked Hk) as Hh.
  pose proof (head_take 1 ranked (Z.le_refl 1)) as Hh1.
  destruct ranked as [|first rest] eqn:E.
  - rewrite !take_nil. split; [reflexivity|constructor].
  - cbn [hd_error] in Hh, Hh1.
    destruct (take 1 (first :: rest)) as [|a l1] eqn:E1; [discriminate|].
    injection Hh1 as ->.
    destruct (take top_k (first :: rest)) as [|b lk] eqn:Ek; [discriminate|].
    injection Hh as ->. split; [reflexivity|].
    cbn [primary_score]. apply Forall_forall. intros e He.
    assert (Hin : In e (first :: rest)).
    { apply (take_incl top_k). rewrite Ek. exact He. }
    destruct Hin as [<- | Hin]; [apply Qle_refl|].
    inversion Hs as [|? ? _ Hf]; subst.
    rewrite Forall_forall in Hf. now apply Hf.
Qed.

Lemma infer_titles self enc keywords top_k threshold :
  reachable enc (Inference.skills_matcher self) ->
  Forall (fun e =>
            In (titulo e) (corpus (Inference.skills_matcher self)) /\
            codigo e = occupation_code self (titulo e))
         (infer_occupations cos_sim self keywords top_k threshold).
Proof.
  intros Hr. rewrite infer_occupations_eq.
  apply Forall_forall. intros e He. apply take_incl in He.
  apply (Permutation_in _ (Permutation_sym (sort_desc_perm _ score _))) in He.
  unfold grouped in He. rewrite map_map in He.
  apply in_map_iff in He as (t & <- & Ht). rewrite fromkeys_In in Ht.
  cbn [consolidate titulo codigo]. split; [|reflexivity].
  apply in_map_iff in Ht as (p & <- & Hp). unfold hits in Hp.
  apply in_flat_map in Hp as (k & _ & Hp).
  destruct (find_similar_texts vec cos_sim enc (Inference.skills_matcher self)
              k 10 threshold Hr) as [_ Hin].
  rewrite Forall_forall in Hin. now apply Hin.
Qed.

Lemma find_code (occs : list (string * string)) (t : string) :
  In t (map snd occs) ->
  exists c,
    option_map fst (find (fun occ => String.eqb (snd occ) t) occs) = Some c /\
    In (c, t) occs.
Proof.
  induction occs as [|[c0 t0] l IH]; [intros []|].
  cbn [map In find snd]. intros H.
  destruct (String.eqb t0 t) eqn:E.
  - apply String.eqb_eq in E. subst t0. exists c0. split; [reflexivity|now left].
  - destruct H as [H | H]; [subst; now rewrite String.eqb_refl in E|].
    destruct (IH H) as (c & Hc & Hin). exists c. split; [exact Hc|now right].
Qed.


End InferenceMoreFacts.

(** ** The classifier of the routes *)

Section ClassifierFacts.

Import Inference OccupationInference ExtractionRoutes.

Local Open Scope string_scope.

Lemma append_assoc3 (a b c : string) : (a ++ b) ++ c = a ++ (b ++ c).
Proof. induction a as [|x a IH]; cbn; [reflexivity|now rewrite IH]. Qed.

Lemma contains_trans (text keyword part : string) :
  contains text keyword = true -> contains keyword part = true ->
  contains text part = true.
Proof.
  rewrite !contains_spec. intros (a & b & ->) (c & d & ->).
  exists (a ++ c), (d ++ b). now rewrite !append_assoc3.
Qed.

Lemma contains_truthy (text keyword : string) :
  truthy keyword = true -> contains text keyword = true -> truthy text = true.
Proof.
  intros Hk Hc. apply contains_spec in Hc as (a & b & ->).
  destruct a; [|reflexivity]. destruct keyword; [discriminate|reflexivity].
Qed.

Lemma technical_keywords_truthy :
  forallb truthy technical_keywords = true.
Proof. reflexivity. Qed.

Lemma has_keyword (text : string) (keywords : list string) (keyword : string) :
  In keyword keywords -> contains text keyword = true ->
  existsb (fun k => contains text k) keywords = true.
Proof. intros Hin Hc. apply existsb_exists. now exists keyword. Qed.

Lemma detect_technical (o : inferred) (keyword : string) :
  In keyword technical_keywords ->
  contains (lower (titulo o)) keyword = true ->
  _detect_resume_type (Occupation o) = technical.
Proof.
  intros Hin Hc. unfold _detect_resume_type. cbn [primary_titulo].
  assert (Ht : truthy (titulo o) = true).
  { rewrite <- lower_truthy. apply (contains_truthy _ keyword); [|exact Hc].
    pose proof technical_keywords_truthy as Hall.
    rewrite forallb_forall in Hall. now apply Hall. }
  rewrite Ht. cbn [negb].
  now rewrite (has_keyword _ _ keyword Hin Hc).
Qed.

(** X22. [_detect_resume_type], the technical keywords first. An occupation
    whose title contains a technical keyword, case apart, is technical,
    whatever else the title contains and whatever its score. *)
Theorem technical_keywords_first (o : inferred) (keyword : string) :
  In keyword technical_keywords ->
  Extraction.is_substring keyword (lower (titulo o)) ->
  _detect_resume_type (Occupation o) = technical.
Proof.
  intros Hin Hs. apply (detect_technical o keyword Hin).
  now apply contains_spec.
Qed.

(** X23. [_detect_resume_type], keywords that never decide. Four keywords of
    the non-technical list contain a technical keyword ("analista de rh",
    "arquiteto" and "engenheiro civil" contain "analista", "arquiteto" and
    "engenheiro"; "marketing" contains "ti"): an occupation whose title
    contains one of them is technical. *)
Theorem shadowed_non_technical_keywords (o : inferred) (keyword : string) :
  In keyword ["analista de rh"; "marketing"; "arquiteto"; "engenheiro civil"] ->
  In keyword non_technical_keywords /\
  (Extraction.is_substring keyword (lower (titulo o)) ->
   _detect_resume_type (Occupation o) = technical).
Proof.
  intros Hin.
  assert (Hsh : exists t, In t technical_keywords /\ contains keyword t = true).
  { destruct Hin as [<- | [<- | [<- | [<- | []]]]].
    - exists "analista". split; [cbn; tauto|reflexivity].
    - exists "ti". split; [cbn; tauto|reflexivity].
    - exists "arquiteto". split; [cbn; tauto|reflexivity].
    - exists "engenheiro". split; [cbn; tauto|reflexivity]. }
  split.
  - destruct Hin as [<- | [<- | [<- | [<- | []]]]]; cbn; tauto.
  - intros Hs. destruct Hsh as (t & Ht & Hc).
    apply (detect_technical o t Ht).
    apply (contains_trans _ keyword t); [now apply contains_spec|exact Hc].
Qed.

(** X24. [_detect_resume_type], no keyword. For a title that is not empty and
    contains no keyword of either list, the score decides: technical
    above 0.75, non-technical otherwise. *)
Theorem detect_by_score (o : inferred) :
  titulo o <> EmptyString ->
  (forall keyword,
      In keyword (technical_keywords ++ non_technical_keywords)%list ->
      ~ Extraction.is_substring keyword (lower (titulo o))) ->
  (_detect_resume_type (Occupation o) = technical <-> (75 # 100 < score o)%Q) /\
  (_detect_resume_type (Occupation o) = non_technical
   <-> (score o <= 75 # 100)%Q).
Proof.
  intros Hne Hno. unfold _detect_resume_type. cbn [primary_titulo primary_score].
  assert (Ht : truthy (titulo o) = true)
    by (destruct (titulo o); [congruence|reflexivity]).
  rewrite Ht. cbn [negb].
  assert (Hnone : forall l,
             (forall k, In k l ->
                        In k (technical_keywords ++ non_technical_keywords)%list) ->
             existsb (fun k => contains (lower (titulo o)) k) l = false).
  { intros l Hl. destruct (existsb _ l) eqn:E; [|reflexivity].
    apply existsb_exists in E as (k & Hk & Hc).
    exfalso. apply (Hno k (Hl k Hk)). now apply contains_spec. }
  rewrite (Hnone technical_keywords)
    by (intros k Hk; apply in_or_app; now left).
  rewrite (Hnone non_technical_keywords)
    by (intros k Hk; apply in_or_app; now right).
  destruct (Qgt_bool (score o) (75 # 100)) eqn:E.
  - apply Qgt_bool_iff in E. split; split; try tauto; try discriminate.
    intros H. exfalso. exact (Qlt_not_le _ _ E H).
  - apply Qgt_bool_false in E. split; split; try tauto; try discriminate.
    intros H. exfalso. exact (Qlt_not_le _ _ H E).
Qed.

End ClassifierFacts.

(** ** The classifier on the answer of the inference *)

Section AnalysisFacts.

Import Inference OccupationInference ExtractionRoutes.

Variable vec : Type.
Variable cos_sim : vec -> vec -> Q.

Implicit Types (self : OccupationInferenceService vec).

(** X25. [infer_primary_occupation] then [_detect_resume_type]. On a built
    index, the type of the text is unknown exactly when no occupation was
    inferred, that is when [infer_occupations] with [top_k = 1] returns
    nothing; an inferred occupation is always classified. *)
Theorem detect_unknown_iff_nothing_inferred enc self keywords threshold :
  reachable enc (Inference.skills_matcher self) ->
  (_detect_resume_type
     (infer_primary_occupation cos_sim self keywords threshold) = unknown
   <-> infer_primary_occupation cos_sim self keywords threshold = NoOccupation) /\
  (infer_primary_occupation cos_sim self keywords threshold = NoOccupation
   <-> infer_occupations cos_sim self keywords 1 threshold = []).
Proof.
  intros Hr. unfold infer_primary_occupation.
  pose proof (infer_titles vec cos_sim self enc keywords 1 threshold Hr) as Ht.
  destruct (reachable_corpus vec enc _ Hr) as [_ Hnorm].
  destruct (infer_occupations cos_sim self keywords 1 threshold)
    as [|first rest].
  - split; split; reflexivity.
  - inversion Ht as [|? ? [Hin _] _]; subst.
    rewrite Forall_forall in Hnorm.
    destruct (Hnorm _ Hin) as (_ & _ & Hne).
    assert (Htr : truthy (titulo first) = true)
      by (destruct (titulo first); [congruence|reflexivity]).
    split; split; try discriminate.
    unfold _detect_resume_type. cbn [primary_titulo]. rewrite Htr. cbn [negb].
    destruct (existsb _ technical_keywords); [discriminate|].
    destruct (existsb _ non_technical_keywords); [discriminate|].
    destruct (Qgt_bool _ _); discriminate.
Qed.

End AnalysisFacts.

(** ** [SkillsMatchingService] *)

Section SkillsServiceFacts.

Import SkillsService.

Variable vec : Type.
Variable cos_sim : vec -> vec -> Q.

Implicit Types (enc : string -> vec).
Implicit Types (self : SkillsMatchingService vec).
Implicit Types (skills : list string) (threshold : Q) (top_k : Z).

Lemma clean_normalize s : strip (lower s) = normalize s.
Proof. unfold normalize. apply strip_lower. Qed.

Lemma find_similar_normalize (m : SkillsMatcher vec) s top_k threshold :
  find_similar cos_sim m (normalize s) top_k threshold
  = find_similar cos_sim m s top_k threshold.
Proof.
  unfold find_similar. destruct (normalize_fix s) as [Hl Hs].
  fold (normalize (normalize s)). fold (normalize s).
  unfold normalize at 1. now rewrite Hs, Hl.
Qed.

(** The value [match_unrecognized_skills] stores under a key. *)
Lemma unrecognized_step_valid self top_k threshold results log s :
  truthy (strip s) = true ->
  unrecognized_step cos_sim self top_k threshold (results, log) s
  = (PyDict.set results (normalize s)
       (let found :=
          map (enhance self)
              (find_similar cos_sim (skills_matcher self) (normalize s)
                 top_k threshold) in
        {| matched := 0 <? List.length found;
           matches := found;
           total_matches := List.length found;
           threshold_used := threshold |}),
     log ++ [mkQuery s top_k threshold]).
Proof.
  intros H. unfold unrecognized_step. rewrite H. cbn [negb].
  now rewrite clean_normalize, find_similar_normalize.
Qed.

Lemma unrecognized_step_blank self top_k threshold st s :
  truthy (strip s) = false ->
  unrecognized_step cos_sim self top_k threshold st s = st.
Proof.
  intros H. unfold unrecognized_step. destruct st. now rewrite H.
Qed.

Lemma unrecognized_loop self top_k threshold skills results log :
  fold_left (unrecognized_step cos_sim self top_k threshold) skills
            (results, log)
  = (fold_left
       (fun d k =>
          PyDict.set d k
            (let found :=
               map (enhance self)
                   (find_similar cos_sim (skills_matcher self) k
                      top_k threshold) in
             {| matched := 0 <? List.length found;
                matches := found;
                total_matches := List.length found;
                threshold_used := threshold |}))
       (map normalize (filter (fun s => truthy (strip s)) skills)) results,
     log ++ map (fun s => mkQuery s top_k threshold)
                (filter (fun s => truthy (strip s)) skills)).
Proof.
  revert results log. induction skills as [|s l IH]; intros results log.
  - cbn. now rewrite app_nil_r.
  - cbn [fold_left filter]. destruct (truthy (strip s)) eqn:E.
    + rewrite (unrecognized_step_valid _ _ _ _ _ _ E), IH.
      cbn [map fold_left]. now rewrite <- app_assoc.
    + now rewrite (unrecognized_step_blank _ _ _ _ _ E), IH.
Qed.

(** X26. [match_unrecognized_skills]. The answer is the error dictionary
    exactly when the index is not ready, and then the index is not
    queried. On a ready index the keys of the results are the normalized
    texts of the skills that are not blank, each once, in the order in
    which they are first seen, and the index is queried once per such
    skill; the value of a key holds what [find_similar] returns for the
    key itself, enriched item by item: [total_matches] is the number of
    matches, at most [top_k] when [top_k >= 0], and [matched] says whether
    there is one. *)
Theorem match_unrecognized_skills_results self skills top_k threshold :
  let answer := match_unrecognized_skills cos_sim self skills top_k threshold in
  let kept := filter (fun s => truthy (strip s)) skills in
  if is_corpus_ready (skills_matcher self) then
    exists results,
      answer = (MatchResults results,
                map (fun s => mkQuery s top_k threshold) kept) /\
      PyDict.keys results = fromkeys (map normalize kept) /\
      Forall (fun kv =>
                let found :=
                  find_similar cos_sim (skills_matcher self) (fst kv)
                    top_k threshold in
                matches (snd kv) = map (enhance self) found /\
                total_matches (snd kv) = List.length found /\
                (matched (snd kv) = true <-> found <> []) /\
                threshold_used (snd kv) = threshold /\
                ((0 <=? top_k)%Z = true ->
                 total_matches (snd kv) <= Z.to_nat top_k))
             results
  else
    exists message, answer = (MatchError message, []).
Proof.
  intros answer kept. unfold answer, match_unrecognized_skills.
  destruct (is_corpus_ready (skills_matcher self)); cbn [negb];
    [|eexists; reflexivity].
  rewrite unrecognized_loop. fold kept. cbn [app].
  rewrite (fold_set_keys
             (fun k =>
                let found :=
                  map (enhance self)
                      (find_similar cos_sim (skills_matcher self) k
                         top_k threshold) in
                {| matched := 0 <? List.length found;
                   matches := found;
                   total_matches := List.length found;
                   threshold_used := threshold |})).
  eexists. split; [reflexivity|]. split.
  - unfold PyDict.keys. rewrite map_map. cbn [fst]. apply map_id.
  - apply Forall_forall. intros kv Hkv.
    apply in_map_iff in Hkv as (k & <- & _).
    cbn [fst snd matches total_matches matched threshold_used].
    rewrite length_map.
    split; [reflexivity|]. split; [reflexivity|]. split.
    + rewrite Nat.ltb_lt.
      destruct (find_similar cos_sim (skills_matcher self) k top_k threshold);
        cbn [List.length]; split; intros H; try lia; congruence.
    + split; [reflexivity|]. intros Hk. apply Z.leb_le in Hk.
      rewrite find_similar_take. now apply take_length_le.
Qed.

Lemma confident_at_max enc self skill_clean confidence_threshold :
  reachable enc (skills_matcher self) ->
  confident_matches cos_sim self skill_clean confidence_threshold
  = find_similar cos_sim (skills_matcher self) skill_clean 5
      (Qmax_bool (50 # 100) confidence_threshold).
Proof.
  intros Hr. unfold confident_matches, Qmax_bool.
  destruct (Qle_bool (50 # 100) confidence_threshold) eqn:E.
  - apply Qle_bool_iff in E.
    apply (find_similar_filter vec cos_sim enc); [exact Hr|exact E|lia].
  - pose proof (find_similar_clears vec cos_sim (skills_matcher self)
                  skill_clean 5 (50 # 100)) as Hc.
    assert (Hlt : (confidence_threshold <= 50 # 100)%Q).
    { apply Qlt_le_weak, Qnot_le_lt. intros H.
      apply Qle_bool_iff in H. congruence. }
    induction Hc as [|p l Hp _ IH]; [reflexivity|]. cbn [filter].
    assert (Hq : Qle_bool confidence_threshold (snd p) = true).
    { apply Qle_bool_iff. eapply Qle_trans; eassumption. }
    now rewrite Hq, IH.
Qed.

Lemma enrich_loop self confidence_threshold skills processed log :
  fold_left (enrich_step cos_sim self confidence_threshold) skills
            (processed, log)
  = (processed ++
       map (fun s =>
              let confident :=
                confident_matches cos_sim self (normalize s)
                  confidence_threshold in
              {| original := s;
                 normalized := normalize s;
                 high_confidence_matches :=
                   map (fun m => (fst m, round4 (snd m))) confident;
                 is_recognized := 0 <? List.length confident |})
           (filter (fun s => truthy (strip s)) skills),
     log ++ map (fun s => mkQuery (normalize s) 5 (50 # 100))
                (filter (fun s => truthy (strip s)) skills)).
Proof.
  revert processed log. induction skills as [|s l IH]; intros processed log.
  - cbn. now rewrite !app_nil_r.
  - cbn [fold_left filter]. unfold enrich_step at 2.
    destruct (truthy (strip s)) eqn:E; cbn [negb].
    + rewrite IH, clean_normalize. cbn [map]. now rewrite <- !app_assoc.
    + apply IH.
Qed.


End SkillsServiceFacts.

(** ** The constructors of the services *)

Section ConstructorFacts.

Variable vec : Type.
Variable cos_sim : vec -> vec -> Q.

Implicit Types (enc : string -> vec).

Lemma fromkeys_length (l : list string) :
  List.length (fromkeys l) <= List.length l.
Proof.
  apply NoDup_incl_length; [apply fromkeys_NoDup|].
  intros x Hx. now apply fromkeys_In.
Qed.

Lemma vocabulary_nonempty (skills : list string) :
  fromkeys (filter truthy (map normalize skills)) <> [] <->
  Exists (fun s => strip s <> EmptyString) skills.
Proof.
  split.
  - intros H.
    destruct (fromkeys (filter truthy (map normalize skills))) as [|e l] eqn:E;
      [congruence|].
    assert (Hin : In e (fromkeys (filter truthy (map normalize skills))))
      by (rewrite E; now left).
    rewrite fromkeys_In, filter_In in Hin. destruct Hin as [Hin Ht].
    apply in_map_iff in Hin as (s & <- & Hs).
    apply Exists_exists. exists s. split; [exact Hs|].
    rewrite normalize_truthy in Ht. intros Hz. now rewrite Hz in Ht.
  - intros H. apply Exists_exists in H as (s & Hs & Hne).
    assert (Hin : In (normalize s)
                     (fromkeys (filter truthy (map normalize skills)))).
    { rewrite fromkeys_In, filter_In. split; [now apply in_map|].
      rewrite normalize_truthy. destruct (strip s); [congruence|reflexivity]. }
    intros Hz. rewrite Hz in Hin. destruct Hin.
Qed.

Lemma vocabulary_length (skills : list string) :
  List.length (fromkeys (filter truthy (map normalize skills)))
  <= List.length skills.
Proof.
  pose proof (fromkeys_length (filter truthy (map normalize skills))) as H1.
  pose proof (filter_length truthy (map normalize skills)) as H2.
  rewrite length_map in H2. lia.
Qed.

Lemma ready_nonempty enc (l : list string) (embs : list vec) :
  is_corpus_ready {| model := Some enc;
                     corpus_embeddings := Some embs;
                     corpus := l |} = true <-> l <> [].
Proof.
  unfold is_corpus_ready. cbn. destruct l; cbn; split; congruence.
Qed.

(** X28. [SkillsMatchingService.__init__] and [get_model_info]. The
    constructor returns a service; its model is reported ready exactly
    when some skill of the list is not blank, its corpus is reported built
    exactly when the list is not empty, and the size of the corpus, the
    number of distinct normalized skills, never exceeds the length of the
    list. *)
Theorem skills_service_constructed (loader : SkillsService.CBODataLoader)
    enc (all_skills : list string) :
  exists self,
    SkillsService.__init__ loader enc all_skills = Returned self /\
    SkillsService.cbo_loader self = loader /\
    reachable enc (SkillsService.skills_matcher self) /\
    corpus (SkillsService.skills_matcher self)
    = fromkeys (filter truthy (map normalize all_skills)) /\
    (SkillsService.model_ready (SkillsService.get_model_info self) = true
     <-> Exists (fun s => strip s <> EmptyString) all_skills) /\
    (SkillsService.corpus_built (SkillsService.get_model_info self) = true
     <-> all_skills <> []) /\
    SkillsService.corpus_size (SkillsService.get_model_info self)
    <= List.length all_skills.
Proof.
  unfold SkillsService.__init__. destruct all_skills as [|s l].
  - eexists. split; [reflexivity|]. split; [reflexivity|].
    split; [apply reach_new|]. split; [reflexivity|].
    cbn. repeat split; try congruence; try lia.
    intros H. inversion H.
  - rewrite build_corpus_returns.
    eexists. split; [reflexivity|]. split; [reflexivity|].
    split; [eapply reach_build; [apply reach_new|apply build_corpus_returns]|].
    split; [reflexivity|].
    unfold SkillsService.get_model_info.
    cbn [SkillsService.skills_matcher SkillsService.model_ready
         SkillsService.corpus_built SkillsService.corpus_size
         corpus corpus_embeddings model new_matcher].
    split; [|split].
    + rewrite <- vocabulary_nonempty. apply ready_nonempty.
    + cbn. split; [discriminate|reflexivity].
    + apply vocabulary_length.
Qed.

(** X29. [SkillExtractionService.__init__] and [match_skills_with_bert]. The
    constructor returns a service whose index is ready exactly when some
    skill of the list is not blank; when all are blank, or there is none,
    the service maps nothing: [match_skills_with_bert] returns the empty
    list for every input, without a call to the index. *)
Theorem extraction_service_constructed enc (all_skills : list string) :
  exists self,
    ResumeExtraction.__init__ enc all_skills = Returned self /\
    reachable enc (Extraction.skills_matcher self) /\
    (is_corpus_ready (Extraction.skills_matcher self) = true
     <-> Exists (fun s => strip s <> EmptyString) all_skills) /\
    (~ Exists (fun s => strip s <> EmptyString) all_skills ->
     forall skills threshold top_k,
       Extraction.match_skills_with_bert cos_sim self skills threshold top_k
       = (Returned [], [])).
Proof.
  unfold ResumeExtraction.__init__.
  assert (Hmap : forall self,
             (is_corpus_ready (Extraction.skills_matcher self) = true
              <-> Exists (fun s => strip s <> EmptyString) all_skills) ->
             ~ Exists (fun s => strip s <> EmptyString) all_skills ->
             forall skills threshold top_k,
               Extraction.match_skills_with_bert cos_sim self skills
                 threshold top_k = (Returned [], [])).
  { intros self Hiff Hno skills threshold top_k.
    unfold Extraction.match_skills_with_bert.
    destruct (is_corpus_ready (Extraction.skills_matcher self)) eqn:E.
    - exfalso. apply Hno. now apply Hiff.
    - now destruct skills. }
  destruct all_skills as [|s l].
  - eexists. split; [reflexivity|]. split; [apply reach_new|].
    assert (Hiff : is_corpus_ready
                     (Extraction.skills_matcher
                        (Extraction.mkService (new_matcher enc))) = true
                   <-> Exists (fun s => strip s <> EmptyString) []).
    { cbn. split; [discriminate|intros H; inversion H]. }
    split; [exact Hiff|]. now apply Hmap.
  - rewrite build_corpus_returns.
    eexists. split; [reflexivity|].
    split; [eapply reach_build; [apply reach_new|apply build_corpus_returns]|].
    assert (Hiff : is_corpus_ready
                     (Extraction.skills_matcher
                        (Extraction.mkService
                           {| model := model (new_matcher enc);
                              corpus_embeddings :=
                                Some (encode_texts (new_matcher enc)
                                        (fromkeys (filter truthy
                                           (map normalize (s :: l)))));
                              corpus := fromkeys (filter truthy
                                          (map normalize (s :: l))) |})) = true
                   <-> Exists (fun s => strip s <> EmptyString) (s :: l)).
    { rewrite <- vocabulary_nonempty.
      cbn [Extraction.skills_matcher model new_matcher].
      apply ready_nonempty. }
    split; [exact Hiff|]. now apply Hmap.
Qed.

End ConstructorFacts.

(** ** More concrete runs *)

Section MoreRuns.

Import Extraction ResumeExtraction Inference OccupationInference.
Import ExtractionRoutes.

Local Open Scope string_scope.

Lemma demo_ready : is_corpus_ready Demo.matcher = true.
Proof. reflexivity. Defined.

Lemma demo_sim_bounded : forall a b : string, (Demo.sim a b <= 1)%Q.
Proof.
  intros a b. unfold Demo.sim, Demo.cos.
  destruct (String.eqb a b); [apply Qle_refl|].
  unfold Demo.table, Demo.table_sim.
  repeat match goal with
         | |- context [if ?c then _ else _] => destruct c
         end; unfold Qle; cbn; lia.
Defined.

Lemma find_similar_prefix_witness :
  (0 <= 1 <= 5)%Z /\
  find_similar Demo.sim Demo.matcher "obras" 1 (1 # 2)
  = firstn (Z.to_nat 1) (find_similar Demo.sim Demo.matcher "obras" 5 (1 # 2)).
Proof.
  assert (H : (0 <= 1 <= 5)%Z) by lia.
  split; [exact H|].
  exact (find_similar_prefix _ Demo.sim Demo.matcher "obras" 1 5 (1 # 2) H).
Defined.


Lemma find_similar_distinct_normalized_witness :
  reachable Demo.enc Demo.matcher /\
  NoDup (map fst (find_similar Demo.sim Demo.matcher "obras" 5 (1 # 2))) /\
  Forall (fun p => In (fst p) (corpus Demo.matcher) /\ normalized (fst p))
         (find_similar Demo.sim Demo.matcher "obras" 5 (1 # 2)).
Proof.
  split; [exact demo_reachable|].
  exact (find_similar_distinct_normalized _ Demo.sim Demo.enc Demo.matcher
           "obras" 5 (1 # 2) demo_reachable).
Defined.

Lemma find_similar_nonpositive_top_k_witness :
  reachable Demo.enc Demo.matcher /\ (-1 <= 0)%Z /\
  find_similar Demo.sim Demo.matcher "obras" (-1) (1 # 2)
  = [("engenheiro civil", 75 # 100)].
Proof.
  assert (Hk : (-1 <= 0)%Z) by lia.
  split; [exact demo_reachable|split; [exact Hk|]].
  exact (eq_trans
           (find_similar_nonpositive_top_k _ Demo.sim Demo.enc Demo.matcher
              "obras" (-1) (1 # 2) demo_reachable Hk)
           eq_refl).
Defined.

Lemma calculate_similarity_variant_witness :
  variant "  Python Developer " "python developer" /\
  variant "  Python Developer " "python developer" /\
  calculate_similarity Demo.sim Demo.matcher
    "  Python Developer " "  Python Developer "
  = calculate_similarity Demo.sim Demo.matcher
      "python developer" "python developer".
Proof.
  split; [exact demo_variant|split; [exact demo_variant|]].
  exact (calculate_similarity_variant _ Demo.sim Demo.matcher _ _ _ _
           demo_variant demo_variant).
Defined.

Lemma find_similar_scores_are_similarities_witness :
  reachable Demo.enc Demo.matcher /\
  Forall (fun p => snd p
                   = calculate_similarity Demo.sim Demo.matcher
                       "Python Developer" (fst p))
         (find_similar Demo.sim Demo.matcher "Python Developer" 5 (5 # 100)).
Proof.
  split; [exact demo_reachable|].
  exact (find_similar_scores_are_similarities _ Demo.sim Demo.enc Demo.matcher
           "Python Developer" 5 (5 # 100) demo_reachable).
Defined.



Lemma match_skills_with_bert_best_witness :
  reachable Demo.enc (Extraction.skills_matcher Demo.extraction) /\
  is_corpus_ready (Extraction.skills_matcher Demo.extraction) = true /\
  (1 <= 3)%Z /\
  exists matched,
    answer_of (match_skills_with_bert Demo.sim Demo.extraction
                 ["obras"; "cobol"] (1 # 2) 3) = Some matched /\
    answer_of (match_skills_with_bert Demo.sim Demo.extraction
                 ["obras"; "cobol"] (1 # 2) 1) = Some matched.
Proof.
  assert (Hk : (1 <= 3)%Z) by lia.
  split; [exact demo_reachable|split; [exact demo_ready|split; [exact Hk|]]].
  destruct (match_skills_with_bert_best _ Demo.sim Demo.enc Demo.extraction
              ["obras"; "cobol"] (1 # 2) 3 demo_reachable demo_ready Hk)
    as (matched & H1 & H2 & _).
  exists matched. split; [exact H1|exact H2].
Defined.

Lemma calculate_profile_match_partition_witness :
  ["Python"; "AWS"; "Docker"] <> [] /\
  exists answer matched missing,
    answer_of (calculate_profile_match Demo.sim Demo.extraction
                 ["Python"; "Docker"] ["Python"; "AWS"; "Docker"]
                 (7 # 10) (3 # 10)) = Some answer /\
    get_matched_skills answer = Some matched /\
    get_missing_skills answer = Some missing /\
    Permutation (matched ++ missing) ["Python"; "AWS"; "Docker"].
Proof.
  assert (Hr : ["Python"; "AWS"; "Docker"] <> []) by discriminate.
  split; [exact Hr|].
  destruct (calculate_profile_match_partition _ Demo.sim Demo.extraction
              ["Python"; "Docker"] ["Python"; "AWS"; "Docker"]
              (7 # 10) (3 # 10) Hr)
    as (answer & matched & missing & H1 & H2 & H3 & H4 & _).
  exists answer, matched, missing. repeat split; assumption.
Defined.


Lemma calculate_profile_match_candidate_set_witness :
  (forall x, In x (map lower ["Python"; "Docker"])
             <-> In x (map lower ["docker"; "PYTHON"; "python"])) /\
  calculate_profile_match Demo.sim Demo.extraction
    ["Python"; "Docker"] ["Python"; "AWS"; "Docker"] (7 # 10) (3 # 10)
  = calculate_profile_match Demo.sim Demo.extraction
      ["docker"; "PYTHON"; "python"] ["Python"; "AWS"; "Docker"]
      (7 # 10) (3 # 10).
Proof.
  assert (H : forall x, In x (map lower ["Python"; "Docker"])
                        <-> In x (map lower ["docker"; "PYTHON"; "python"]))
    by (intros x; cbn; tauto).
  split; [exact H|].
  exact (calculate_profile_match_candidate_set _ Demo.sim Demo.extraction
           ["Python"; "Docker"] ["docker"; "PYTHON"; "python"]
           ["Python"; "AWS"; "Docker"] (7 # 10) (3 # 10) H).
Defined.

Lemma calculate_profile_match_more_skills_witness :
  (forall a b : string, (Demo.sim a b <= 1)%Q) /\
  ["Python"] <> [] /\ ["Python"; "obras"] <> [] /\
  exists report report',
    answer_of (calculate_profile_match Demo.sim Demo.extraction
                 ["Python"] ["Python"; "obras"] (7 # 10) (3 # 10))
    = Some (MatchDict report) /\
    answer_of (calculate_profile_match Demo.sim Demo.extraction
                 (["Python"] ++ ["Engenheiro Civil"]) ["Python"; "obras"]
                 (7 # 10) (3 # 10))
    = Some (MatchDict report') /\
    (match_score report <= match_score report')%Q /\
    (match_percentage report <= match_percentage report')%Z.
Proof.
  assert (Hc : ["Python"] <> []) by discriminate.
  assert (Hr : ["Python"; "obras"] <> []) by discriminate.
  split; [exact demo_sim_bounded|split; [exact Hc|split; [exact Hr|]]].
  exact (calculate_profile_match_more_skills _ Demo.sim Demo.extraction
           ["Python"] ["Engenheiro Civil"] ["Python"; "obras"]
           (7 # 10) (3 # 10) demo_sim_bounded Hc Hr).
Defined.

Lemma calculate_profile_match_all_contained_witness :
  ["python"; "docker"] <> [] /\
  Forall (contained ["Python 3"; "Docker Compose"]) ["python"; "docker"] /\
  exists report,
    calculate_profile_match Demo.sim Demo.extraction
      ["Python 3"; "Docker Compose"] ["python"; "docker"] (7 # 10) (3 # 10)
    = (Returned (MatchDict report), []) /\
    match_percentage report = 100%Z /\
    level report = EXCELENTE.
Proof.
  assert (Hr : ["python"; "docker"] <> []) by discriminate.
  assert (Hall : Forall (contained ["Python 3"; "Docker Compose"])
                        ["python"; "docker"]).
  { repeat constructor; apply exact_contained; reflexivity. }
  split; [exact Hr|split; [exact Hall|]].
  destruct (calculate_profile_match_all_contained _ Demo.sim Demo.extraction
              ["Python 3"; "Docker Compose"] ["python"; "docker"]
              (7 # 10) (3 # 10) Hr Hall)
    as (report & H1 & _ & H2 & H3 & _).
  exists report. split; [exact H1|split; [exact H2|exact H3]].
Defined.


Lemma infer_occupations_empty_witness :
  (1 <= 5)%Z /\
  (infer_occupations Demo.sim Demo.inference ["ab"; "cobol"] 5 (65 # 100) = []
   <-> Forall (fun k =>
                 String.length (strip k) < 3 \/
                 find_similar Demo.sim
                   (Inference.skills_matcher Demo.inference) k 10 (65 # 100)
                 = [])
              ["ab"; "cobol"]).
Proof.
  assert (Hk : (1 <= 5)%Z) by lia.
  split; [exact Hk|].
  exact (proj1 (infer_occupations_empty _ Demo.sim Demo.inference
                  ["ab"; "cobol"] 5 (65 # 100) Hk)).
Defined.

Lemma infer_primary_occupation_first_witness :
  (1 <= 5)%Z /\
  infer_primary_occupation Demo.sim Demo.inference
    ["engenharia civil"; "obras"] (65 # 100)
  = match infer_occupations Demo.sim Demo.inference
            ["engenharia civil"; "obras"] 5 (65 # 100) with
    | first :: _ => Occupation first
    | [] => NoOccupation
    end.
Proof.
  assert (Hk : (1 <= 5)%Z) by lia.
  split; [exact Hk|].
  exact (proj1 (infer_primary_occupation_first _ Demo.sim Demo.inference
                  ["engenharia civil"; "obras"] 5 (65 # 100) Hk)).
Defined.

Lemma technical_keywords_first_witness :
  In "engenheiro" technical_keywords /\
  Extraction.is_substring "engenheiro" (lower (titulo Sample.civil_engineer)) /\
  _detect_resume_type (Occupation Sample.civil_engineer) = technical.
Proof.
  assert (Hin : In "engenheiro" technical_keywords) by (cbn; tauto).
  assert (Hs : Extraction.is_substring "engenheiro"
                 (lower (titulo Sample.civil_engineer)))
    by (exists "", " civil"; reflexivity).
  split; [exact Hin|split; [exact Hs|]].
  exact (technical_keywords_first Sample.civil_engineer "engenheiro" Hin Hs).
Defined.

Lemma shadowed_non_technical_keywords_witness :
  In "marketing"
     ["analista de rh"; "marketing"; "arquiteto"; "engenheiro civil"] /\
  Extraction.is_substring "marketing" (lower (titulo Sample.marketing_manager)) /\
  In "marketing" non_technical_keywords /\
  _detect_resume_type (Occupation Sample.marketing_manager) = technical.
Proof.
  assert (Hin : In "marketing"
                   ["analista de rh"; "marketing"; "arquiteto";
                    "engenheiro civil"]) by (cbn; tauto).
  assert (Hs : Extraction.is_substring "marketing"
                 (lower (titulo Sample.marketing_manager)))
    by (exists "gerente de ", ""; reflexivity).
  split; [exact Hin|split; [exact Hs|]].
  destruct (shadowed_non_technical_keywords Sample.marketing_manager
              "marketing" Hin) as [H1 H2].
  split; [exact H1|exact (H2 Hs)].
Defined.

Lemma mason_has_no_keyword :
  forall keyword,
    In keyword (technical_keywords ++ non_technical_keywords)%list ->
    ~ Extraction.is_substring keyword (lower (titulo Sample.mason)).
Proof.
  intros keyword Hin Hs. apply contains_spec in Hs.
  assert (Hall : forallb (fun k => negb (contains (lower (titulo Sample.mason)) k))
                         (technical_keywords ++ non_technical_keywords)%list
                 = true) by reflexivity.
  rewrite forallb_forall in Hall. specialize (Hall keyword Hin).
  rewrite Hs in Hall. discriminate Hall.
Defined.

Lemma detect_by_score_witness :
  titulo Sample.mason <> EmptyString /\
  (forall keyword,
      In keyword (technical_keywords ++ non_technical_keywords)%list ->
      ~ Extraction.is_substring keyword (lower (titulo Sample.mason))) /\
  (_detect_resume_type (Occupation Sample.mason) = non_technical
   <-> (score Sample.mason <= 75 # 100)%Q).
Proof.
  assert (Hne : titulo Sample.mason <> EmptyString) by discriminate.
  split; [exact Hne|split; [exact mason_has_no_keyword|]].
  exact (proj2 (detect_by_score Sample.mason Hne mason_has_no_keyword)).
Defined.

Lemma detect_unknown_iff_nothing_inferred_witness :
  reachable Demo.enc (Inference.skills_matcher Demo.inference) /\
  (_detect_resume_type
     (infer_primary_occupation Demo.sim Demo.inference ["cobol"] (65 # 100))
   = unknown
   <-> infer_primary_occupation Demo.sim Demo.inference ["cobol"] (65 # 100)
       = NoOccupation).
Proof.
  split; [exact demo_reachable|].
  exact (proj1 (detect_unknown_iff_nothing_inferred _ Demo.sim Demo.enc
                  Demo.inference ["cobol"] (65 # 100) demo_reachable)).
Defined.


End MoreRuns.
